(** * Directory-backed authentication: LDAP driver, login router, SDK refresh

    A shallow embedding of the LDAP authentication driver
    ([LDAPAuthDriver], [handleError], [createLDAPAuthRouter]) and of the
    client-side session refresh lifecycle exercised by the SDK tests,
    followed by the date helper of the Oracle dialect and the layers of
    the map layout.

    Conventions of the embedding:
    - a JavaScript promise is a value of [Promise]: resolved, rejected or
      never settled; the first call of resolve/reject wins;
    - the directory client (ldapjs) is an oracle: a call of search throws,
      or answers with a callback error, or with the list of events its
      response emits, in order; creating a client may throw as well;
    - the database answers its lookups: a lookup that fails is not followed;
    - [undefined]/[null] are [None]; truthiness is written out;
    - strings are byte strings; [String.prototype.toLowerCase] and the
      database's [LOWER] are parameters of the driver, and [ASCII.lower]
      is what both do on a string of ASCII characters. *)

From Stdlib Require Import ZArith String Ascii List Bool Arith Lia.
From Stdlib Require QArith.
Import ListNotations.

Local Open Scope string_scope.
Local Open Scope list_scope.

(* ===================================================================== *)
(** ** JavaScript primitives                                              *)
(* ===================================================================== *)

Module JS.

(** A JavaScript number: NaN, an infinity, or the finite value [m * 2^e]
    (every finite double has this shape; the integer [z] is [Finite z 0]). *)
Inductive number : Type :=
| NaN
| Infinity (negative : bool)
| Finite (m e : Z).

Definition int (z : Z) : number := Finite z 0.

(** Integer part, rounding toward zero. *)
Definition truncate (m e : Z) : Z :=
  if (0 <=? e)%Z then (m * 2 ^ e)%Z else Z.quot m (2 ^ (- e)).

(** Reduction modulo 2^32 into the signed 32-bit range. *)
Definition wrap32 (z : Z) : Z := ((z + 2 ^ 31) mod 2 ^ 32 - 2 ^ 31)%Z.

Definition ToInt32 (x : number) : Z :=
  match x with
  | NaN => 0%Z
  | Infinity _ => 0%Z
  | Finite m e => wrap32 (truncate m e)
  end.

(** [x & y] *)
Definition bitand (x y : number) : number :=
  int (wrap32 (Z.land (ToInt32 x) (ToInt32 y))).

(** ToBoolean on numbers and strings. *)
Definition truthy (x : number) : bool :=
  match x with
  | NaN => false
  | Infinity _ => true
  | Finite m _ => negb (m =? 0)%Z
  end.

Definition truthy_string (s : string) : bool :=
  match s with
  | EmptyString => false
  | String _ _ => true
  end.

(** ToBoolean on a value that may be [undefined]/[null]. *)
Definition truthy_opt (s : option string) : bool :=
  match s with
  | None => false
  | Some s => truthy_string s
  end.

(** [a ?? b] *)
Definition nullish {A : Type} (a : option A) (b : A) : A :=
  match a with
  | Some x => x
  | None => b
  end.

(** [a || b] on strings that may be undefined. *)
Definition or_string (a : option string) (b : string) : string :=
  match a with
  | Some s => if truthy_string s then s else b
  | None => b
  end.

(** A plain object as its own enumerable properties, latest first wins on
    lookup; [assign] is the spread [{...a, ...b}]. *)
Inductive value : Type :=
| VString (s : string)
| VBool (b : bool)
| VNumber (n : number)
| VNull
| VUndefined.

Definition object : Type := list (string * value).

Fixpoint get (o : object) (k : string) : option value :=
  match o with
  | [] => None
  | (k', v) :: rest => if String.eqb k k' then Some v else get rest k
  end.

Definition set (o : object) (k : string) (v : value) : object :=
  (k, v) :: filter (fun kv => negb (String.eqb k (fst kv))) o.

Definition assign (a b : object) : object :=
  fold_left (fun acc kv => set acc (fst kv) (snd kv)) b a.

Definition keys (o : object) : list string := map fst o.

Definition of_opt_string (s : option string) : value :=
  match s with
  | Some s => VString s
  | None => VUndefined
  end.

End JS.

(* ===================================================================== *)
(** ** ASCII letters and their case                                      *)
(* ===================================================================== *)

Module ASCII.

(** Every byte of the string is an ASCII character. *)
Fixpoint only (s : string) : Prop :=
  match s with
  | EmptyString => True
  | String c rest => (nat_of_ascii c < 128)%nat /\ only rest
  end.

(** The letters A-Z lowered, every other byte kept: what lowering does to
    a string of ASCII characters. *)
Definition lower_char (c : ascii) : ascii :=
  let n := nat_of_ascii c in
  if (65 <=? n)%nat && (n <=? 90)%nat then ascii_of_nat (n + 32) else c.

Fixpoint lower (s : string) : string :=
  match s with
  | EmptyString => EmptyString
  | String c rest => String (lower_char c) (lower rest)
  end.

(** The alphabet: each capital letter with its small letter. *)
Definition capitals : string := "ABCDEFGHIJKLMNOPQRSTUVWXYZ".
Definition smalls : string := "abcdefghijklmnopqrstuvwxyz".

Definition alphabet : list (ascii * ascii) :=
  combine (list_ascii_of_string capitals) (list_ascii_of_string smalls).

(** Two characters are the same up to case: they are equal, or one is a
    capital letter and the other its small letter. *)
Definition same_letter (a b : ascii) : Prop :=
  a = b \/ In (a, b) alphabet \/ In (b, a) alphabet.

(** Two strings are equal up to the case of their letters. *)
Fixpoint caseless (s t : string) : Prop :=
  match s, t with
  | EmptyString, EmptyString => True
  | String a s', String b t' => same_letter a b /\ caseless s' t'
  | _, _ => False
  end.

Definition same_letterb (a b : ascii) : bool :=
  Ascii.eqb a b
  || existsb (fun p => (Ascii.eqb a (fst p) && Ascii.eqb b (snd p))
                       || (Ascii.eqb b (fst p) && Ascii.eqb a (snd p)))
             alphabet.

(** All 256 bytes. *)
Definition bytes : list ascii := map ascii_of_nat (seq 0 256).

End ASCII.

(* ===================================================================== *)
(** ** The directory client library and the exception taxonomy          *)
(* ===================================================================== *)

(** Error classes of the directory client that the driver tests with
    [instanceof]; any other error (connection errors, timeouts, system
    errors) is [OtherError]. *)
Inductive ErrorClass : Type :=
| InappropriateAuthenticationError
| InvalidCredentialsError
| InsufficientAccessRightsError
| OperationsError
| OtherError (name : string).

Record Error : Type := mkError { class : ErrorClass; message : string }.

(** What a promise of the adapter can be rejected with: one of the
    exceptions of the backend, or a raw error of the directory client. *)
Inductive Thrown : Type :=
| InvalidCredentialsException
| InvalidPayloadException (msg : string)
| ServiceUnavailableException (msg : string) (service : string) (cause : string)
| InvalidConfigException (msg : string) (provider : string)
| UnexpectedResponseException (msg : string)
| RawError (e : Error).

Inductive Promise (A : Type) : Type :=
| Resolved (a : A)
| Rejected (x : Thrown)
| Pending.

Arguments Resolved {A} a.
Arguments Rejected {A} x.
Arguments Pending {A}.

(** Settling an already settled promise has no effect. *)
Definition settle {A : Type} (p q : Promise A) : Promise A :=
  match p with
  | Pending => q
  | _ => p
  end.

(** [await p; k] inside an async function. *)
Definition await {A B : Type} (p : Promise A) (k : A -> Promise B) : Promise B :=
  match p with
  | Resolved a => k a
  | Rejected x => Rejected x
  | Pending => Pending
  end.

Notation "'let*' x ':=' p 'in' k" := (await p (fun x => k))
  (at level 10, x name, p at level 100, k at level 200).

Definition is_InvalidCredentialsException (x : Thrown) : bool :=
  match x with
  | InvalidCredentialsException => true
  | _ => false
  end.

Definition is_ServiceUnavailableException (x : Thrown) : bool :=
  match x with
  | ServiceUnavailableException _ _ _ => true
  | _ => false
  end.

Definition is_OperationsError (e : Error) : bool :=
  match class e with
  | OperationsError => true
  | _ => false
  end.

(** [handleError] *)
Definition handleError (e : Error) : Thrown :=
  match class e with
  | InappropriateAuthenticationError
  | InvalidCredentialsError
  | InsufficientAccessRightsError => InvalidCredentialsException
  | _ => ServiceUnavailableException "Service returned unexpected error" "ldap" (message e)
  end.

(** *** Search requests and responses *)

Record SearchOptions : Type := mkSearchOptions {
  filter : option (string * string);   (* EqualityFilter: attribute, value *)
  scope : option string;
  attributes : list string
}.

Definition noOptions : SearchOptions := mkSearchOptions None None [].

(** A directory attribute arrives as a string when it has one value and
    as an array of strings when it has several. *)
Inductive AttrValue : Type :=
| one (s : string)
| many (l : list string).

Record SearchEntryObject : Type := mkObject {
  dn : string;
  attrs : list (string * AttrValue)
}.

Fixpoint lookup_attr (l : list (string * AttrValue)) (k : string) : option AttrValue :=
  match l with
  | [] => None
  | (k', v) :: rest => if String.eqb k k' then Some v else lookup_attr rest k
  end.

(** [object[k]] *)
Definition prop (o : SearchEntryObject) (k : string) : option AttrValue :=
  if String.eqb k "dn" then Some (one (dn o)) else lookup_attr (attrs o) k.

Record LDAPResult : Type := mkResult { status : Z }.

Inductive SearchEvent : Type :=
| searchEntry (object : SearchEntryObject)
| searchError (err : Error)
| searchEnd (result : option LDAPResult).

(** What a call of [search] does: it throws before any callback (the
    base is not a distinguished name), or it calls back with an error, or
    with the response and the events it emits. *)
Inductive SearchResponse : Type :=
| SearchThrows (err : Error)
| SearchFailed (err : Error)
| SearchStarted (events : list SearchEvent).

(** Events of a per-verification client: its ['error'] event and the
    callback of the bind request. *)
Inductive ClientEvent : Type :=
| clientError (err : Error)
| bindCallback (err : option Error).

Inductive ClientCall : Type :=
| createClient (options : JS.object)
| onError
| bind (name password : string)
| destroy.

(* ===================================================================== *)
(** ** The driver                                                        *)
(* ===================================================================== *)

Record Config : Type := mkConfig {
  bindDn : string;
  bindPassword : string;
  userDn : string;
  provider : string;
  clientUrl : option string;
  client : option JS.object;
  userAttribute : option string;
  userScope : option string;
  mailAttribute : option string;
  groupDn : option string;
  groupAttribute : option string;
  groupScope : option string
}.

Record User : Type := mkUser { external_identifier : option string }.

Record UserInfo : Type := mkUserInfo {
  firstName : option string;
  lastName : option string;
  email : option string;
  userAccountControl : JS.number
}.

(** 0x2: ACCOUNTDISABLE, 0x10: LOCKOUT, 0x800000: PASSWORD_EXPIRED *)
Definition ACCOUNTDISABLE : Z := 0x2.
Definition LOCKOUT : Z := 0x10.
Definition PASSWORD_EXPIRED : Z := 0x800000.
Definition INVALID_ACCOUNT_FLAGS : Z := 0x800012.

(** [typeof x === 'object' ? x[0] : x] *)
Definition first_or_self (x : option AttrValue) : option string :=
  match x with
  | Some (many l) => hd_error l
  | Some (one s) => Some s
  | None => None
  end.

(** *** verify *)

Record VerifyRun : Type := mkVerifyRun {
  outcome : Promise unit;
  calls : list ClientCall
}.

Definition clientConfig (config : Config) : JS.object :=
  match client config with
  | Some o => o
  | None => []
  end.

Definition verify_step (run : VerifyRun) (ev : ClientEvent) : VerifyRun :=
  match ev with
  | clientError err =>
      mkVerifyRun (settle (outcome run) (Rejected (handleError err))) (calls run)
  | bindCallback (Some err) =>
      mkVerifyRun (settle (outcome run) (Rejected (handleError err)))
                  (calls run ++ [destroy])
  | bindCallback None =>
      mkVerifyRun (settle (outcome run) (Resolved tt)) (calls run ++ [destroy])
  end.

(** [verify user password], run against the events the fresh client
    delivers. *)
Definition verify (config : Config) (user : User) (password : option string)
    (events : list ClientEvent) : VerifyRun :=
  match external_identifier user, password with
  | Some name, Some pw =>
      if JS.truthy_string name && JS.truthy_string pw then
        let options :=
          JS.set (JS.assign [("url", JS.of_opt_string (clientUrl config))]
                            (clientConfig config))
                 "reconnect" (JS.VBool false) in
        fold_left verify_step events
          (mkVerifyRun Pending [createClient options; onError; bind name pw])
      else mkVerifyRun (Rejected InvalidCredentialsException) []
  | _, _ => mkVerifyRun (Rejected InvalidCredentialsException) []
  end.

(** [login] *)
Definition login (config : Config) (user : User) (payload_password : option string)
    (events : list ClientEvent) : VerifyRun :=
  verify config user payload_password events.

(** *** The shared bind client, the database and the users service *)

Module DB.

Record user_row : Type := mkUserRow {
  id : string;
  external_identifier : option string
}.

Record role_row : Type := mkRoleRow {
  role_id : string;
  name : string
}.

(** The two tables the driver queries, rows in the order a query without
    ORDER BY yields them. *)
Record Database : Type := mkDatabase {
  directus_users : list user_row;
  directus_roles : list role_row
}.

(** [LOWER(col)], NULL on NULL; [lower] is what the database's LOWER does
    to a string. *)
Definition LOWER (lower : string -> string) (s : option string) : option string :=
  option_map lower s.

(** [col = ?] with a NULL column never true. *)
Definition sql_eq (col : option string) (v : string) : bool :=
  match col with
  | Some s => String.eqb s v
  | None => false
  end.

(** [col IN (?, ..., ?)] *)
Definition sql_in (col : string) (vs : list string) : bool :=
  existsb (String.eqb col) vs.

(** [.first()] *)
Definition first {A : Type} (rows : list A) : option A := hd_error rows.

End DB.

Inductive ServiceCall : Type :=
| updateOne (key : string) (data : JS.object)
| createOne (data : JS.object).

Record World : Type := mkWorld {
  db : DB.Database;
  service_calls : list ServiceCall
}.

(** An async method of the driver: a promise together with the database
    and the log of users-service calls it leaves behind. *)
Definition Async (A : Type) : Type := World -> Promise A * World.

Definition ret {A : Type} (a : A) : Async A := fun w => (Resolved a, w).

Definition throw {A : Type} (x : Thrown) : Async A := fun w => (Rejected x, w).

Definition awaitA {A B : Type} (m : Async A) (k : A -> Async B) : Async B :=
  fun w =>
    match m w with
    | (Resolved a, w') => k a w'
    | (Rejected x, w') => (Rejected x, w')
    | (Pending, w') => (Pending, w')
    end.

Definition lift {A : Type} (p : Promise A) : Async A := fun w => (p, w).

(** A lookup of the database, awaited: it resolves with what the tables
    hold and changes nothing. The embedding follows the runs in which the
    database answers; a lookup that fails would reject the caller with
    the database's own error. *)
Definition query {A : Type} (q : DB.Database -> A) : Async A :=
  fun w => (Resolved (q (db w)), w).

Notation "x <- m ;; k" := (awaitA m (fun x => k))
  (at level 61, m at next level, right associativity).

Section Driver.

(** [Number(s)] on a string, the parser of the JavaScript runtime. *)
Variable parseNumber : string -> JS.number.

(** [s.toLowerCase()], the lowering of the JavaScript runtime. *)
Variable toLowerCase : string -> string.

(** [LOWER(s)], the lowering of the database. *)
Variable LOWER : string -> string.

Variable config : Config.

(** [this.bindClient.search(base, options, callback)]: whether the call
    throws, and otherwise what the callback receives. An error thrown
    inside the executor of a promise rejects the promise with it. *)
Variable search : option string -> SearchOptions -> SearchResponse.

(** [this.bindClient.bind(name, password, callback)]: the error the
    callback receives, if any. *)
Variable rebind : string -> string -> option Error.

(** [this.usersService]: the outcome of a call and the database after it. *)
Variable usersService : ServiceCall -> DB.Database -> Promise unit * DB.Database.

(** [Number(x)] where [x] may be undefined. *)
Definition Number (x : option string) : JS.number :=
  match x with
  | Some s => parseNumber s
  | None => JS.NaN
  end.

Definition call (c : ServiceCall) : Async unit :=
  fun w =>
    let (r, db') := usersService c (db w) in
    (r, mkWorld db' (service_calls w ++ [c])).

(** One event reaches the listeners of a search response; [state] is
    what the listeners close over besides the promise. *)
Definition listen_step {S A : Type}
    (handler : S -> SearchEvent -> S * Promise A)
    (acc : S * Promise A) (ev : SearchEvent) : S * Promise A :=
  let (s', q) := handler (fst acc) ev in
  (s', settle (snd acc) q).

(** Runs the listeners over the events of a response, in order. *)
Definition listen {S A : Type}
    (handler : S -> SearchEvent -> S * Promise A) (init : S)
    (events : list SearchEvent) : S * Promise A :=
  fold_left (listen_step handler) events (init, Pending).

(** [validateBindClient]; the callback of the rebind is taken to run
    before the next event of the response is delivered. *)
Definition validateBindClient : Promise unit :=
  match search (Some (bindDn config)) noOptions with
  | SearchThrows err => Rejected (RawError err)
  | SearchFailed err => Rejected (handleError err)
  | SearchStarted events =>
      snd (listen
        (fun (_ : unit) ev =>
           (tt,
            match ev with
            | searchEntry _ => Resolved tt
            | searchError err =>
                if negb (is_OperationsError err) then Rejected (handleError err)
                else
                  (* Rebind on OperationsError *)
                  match rebind (bindDn config) (bindPassword config) with
                  | Some err =>
                      let error := handleError err in
                      if is_InvalidCredentialsException error
                      then Rejected (InvalidConfigException "Invalid bind user"
                                                            (provider config))
                      else Rejected error
                  | None => Resolved tt
                  end
            | searchEnd result =>
                match result with
                | Some r =>
                    if (status r =? 0)%Z
                    then Rejected (UnexpectedResponseException
                                     "Failed to find bind user record")
                    else Pending
                | None => Pending
                end
            end))
        tt events)
  end.

(** [fetchUserDn] *)
Definition fetchUserDn (identifier : string) : Promise (option string) :=
  match search (Some (userDn config))
               (mkSearchOptions
                  (Some (JS.nullish (userAttribute config) "cn", identifier))
                  (Some (JS.nullish (userScope config) "one"))
                  []) with
  | SearchThrows err => Rejected (RawError err)
  | SearchFailed err => Rejected (handleError err)
  | SearchStarted events =>
      snd (listen
        (fun (_ : unit) ev =>
           (tt,
            match ev with
            | searchEntry object => Resolved (Some (toLowerCase (dn object)))
            | searchError err => Rejected (handleError err)
            | searchEnd _ => Resolved None
            end))
        tt events)
  end.

(** The [user] object built by the searchEntry listener of
    [fetchUserInfo]. *)
Definition userInfoOf (object : SearchEntryObject) : UserInfo :=
  let email := prop object (JS.nullish (mailAttribute config) "mail") in
  mkUserInfo
    (first_or_self (prop object "givenName"))
    (first_or_self (prop object "sn"))
    (first_or_self email)
    (Number (first_or_self (prop object "userAccountControl"))).

(** [fetchUserInfo] *)
Definition fetchUserInfo (userDn : option string) : Promise (option UserInfo) :=
  match search userDn
               (mkSearchOptions None None
                  ["givenName"; "sn"; JS.nullish (mailAttribute config) "mail";
                   "userAccountControl"]) with
  | SearchThrows err => Rejected (RawError err)
  | SearchFailed err => Rejected (handleError err)
  | SearchStarted events =>
      snd (listen
        (fun (_ : unit) ev =>
           (tt,
            match ev with
            | searchEntry object => Resolved (Some (userInfoOf object))
            | searchError err => Rejected (handleError err)
            | searchEnd _ => Resolved None
            end))
        tt events)
  end.

(** The searchEntry listener of [fetchUserGroups], on the accumulator
    [userGroups]. *)
Definition addGroups (userGroups : list string) (object : SearchEntryObject)
    : list string :=
  match prop object "cn" with
  | Some (many l) => userGroups ++ l
  | Some (one s) => if JS.truthy_string s then userGroups ++ [s] else userGroups
  | None => userGroups
  end.

(** [fetchUserGroups]; the promise resolves to the names gathered when
    the end event arrives. *)
Definition fetchUserGroups (userDn : string) : Promise (list string) :=
  match groupDn config with
  | Some base =>
      if JS.truthy_string base then
        match search (Some base)
                     (mkSearchOptions
                        (Some (JS.nullish (groupAttribute config) "member", userDn))
                        (Some (JS.nullish (groupScope config) "one"))
                        ["cn"]) with
        | SearchThrows err => Rejected (RawError err)
        | SearchFailed err => Rejected (handleError err)
        | SearchStarted events =>
            snd (listen
              (fun (userGroups : list string) ev =>
                 match ev with
                 | searchEntry object => (addGroups userGroups object, Pending)
                 | searchError err => (userGroups, Rejected (handleError err))
                 | searchEnd _ => (userGroups, Resolved userGroups)
                 end)
              [] events)
        end
      else Resolved []
  | None => Resolved []
  end.

(** [fetchUserId] *)
Definition fetchUserId (userDn : string) (d : DB.Database) : option string :=
  option_map DB.id
    (DB.first
       (List.filter
          (fun row => DB.sql_eq (DB.LOWER LOWER (DB.external_identifier row))
                                (toLowerCase userDn))
          (DB.directus_users d))).

(** The role query of [getUserID]: the first role whose lowered name is
    among the lowered group names. *)
Definition fetchRole (userGroups : list string) (d : DB.Database)
    : option DB.role_row :=
  DB.first
    (List.filter
       (fun row => DB.sql_in (LOWER (DB.name row))
                             (map toLowerCase userGroups))
       (DB.directus_roles d)).

(** [getUserID] *)
Definition getUserID (identifier : option string) : Async (option string) :=
  if negb (JS.truthy_opt identifier) then throw InvalidCredentialsException
  else
    _ <- lift validateBindClient ;;
    userDn <- lift (fetchUserDn (JS.nullish identifier "")) ;;
    if negb (JS.truthy_opt userDn) then throw InvalidCredentialsException
    else
      let userDn := JS.nullish userDn "" in
      userId <- query (fetchUserId userDn) ;;
      userGroups <- lift (fetchUserGroups userDn) ;;
      userRole <- (match userGroups with
                   | [] => ret None
                   | _ :: _ => query (fetchRole userGroups)
                   end) ;;
      if JS.truthy_opt userId then
        _ <- call (updateOne (JS.nullish userId "")
                     [("role", match userRole with
                               | Some r => JS.VString (DB.role_id r)
                               | None => JS.VNull
                               end)]) ;;
        ret userId
      else
        userInfo <- lift (fetchUserInfo (Some userDn)) ;;
        match userInfo with
        | None => throw InvalidCredentialsException
        | Some userInfo =>
            _ <- call (createOne
                         [("provider", JS.VString (provider config));
                          ("first_name", JS.of_opt_string (firstName userInfo));
                          ("last_name", JS.of_opt_string (lastName userInfo));
                          ("email", JS.of_opt_string (email userInfo));
                          ("external_identifier", JS.VString userDn);
                          ("role", match userRole with
                                   | Some r => JS.VString (DB.role_id r)
                                   | None => JS.VUndefined
                                   end)]) ;;
            query (fetchUserId userDn)
        end.

(** The condition of [refresh]:
    [userInfo?.userAccountControl && userInfo.userAccountControl & INVALID_ACCOUNT_FLAGS] *)
Definition accountInvalid (userInfo : option UserInfo) : bool :=
  match userInfo with
  | None => false
  | Some info =>
      if JS.truthy (userAccountControl info)
      then JS.truthy (JS.bitand (userAccountControl info)
                                (JS.int INVALID_ACCOUNT_FLAGS))
      else false
  end.

(** [refresh] *)
Definition refresh (user : User) : Promise unit :=
  let* _ := validateBindClient in
  let* userInfo := fetchUserInfo (external_identifier user) in
  if accountInvalid userInfo then Rejected InvalidCredentialsException
  else Resolved tt.

End Driver.

(* ===================================================================== *)
(** ** The login router                                                  *)
(* ===================================================================== *)

Module Router.

(** A member of the request body: a string, or a JSON value of another
    type. *)
Inductive Field : Type :=
| Str (s : string)
| NotStr.

Record Body : Type := mkBody {
  identifier : option Field;
  password : option Field;
  mode : option Field;
  otp : option Field
}.

(** Why a key fails the schema. *)
Inductive Issue : Type :=
| any_required
| string_base
| string_empty
| any_only.

(** [Joi.string()], [.required()] and [.valid(...)] on one key; [valid]
    empty means no restriction. *)
Definition check (required : bool) (valid : list string) (f : option Field)
    : option Issue :=
  match f with
  | None => if required then Some any_required else None
  | Some NotStr => Some string_base
  | Some (Str s) =>
      match valid with
      | [] => if JS.truthy_string s then None else Some string_empty
      | _ :: _ => if existsb (String.eqb s) valid then None else Some any_only
      end
  end.

Definition first_issue (checks : list (string * option Issue))
    : option (string * Issue) :=
  match List.filter (fun c => match snd c with Some _ => true | None => false end)
                    checks with
  | (k, Some i) :: _ => Some (k, i)
  | _ => None
  end.

(** [loginSchema.validate(req.body)]: the first failing key, if any. *)
Definition loginSchema (body : Body) : option (string * Issue) :=
  first_issue
    [("identifier", check true [] (identifier body));
     ("password", check true [] (password body));
     ("mode", check false ["cookie"; "json"] (mode body));
     ("otp", check false [] (otp body))].

Record Env : Type := mkEnv {
  REFRESH_TOKEN_COOKIE_NAME : string;
  REFRESH_TOKEN_COOKIE_DOMAIN : option string;
  REFRESH_TOKEN_TTL : string;
  REFRESH_TOKEN_COOKIE_SECURE : option bool;
  REFRESH_TOKEN_COOKIE_SAME_SITE : option string
}.

Record CookieOptions : Type := mkCookieOptions {
  httpOnly : bool;
  domain : option string;
  maxAge : option Z;
  secure : bool;
  sameSite : string
}.

Record Cookie : Type := mkCookie {
  cookie_name : string;
  cookie_value : string;
  cookie_options : CookieOptions
}.

(** What [authenticationService.login] resolves to. *)
Record Tokens : Type := mkTokens {
  accessToken : string;
  refreshToken : string;
  expires : Z
}.

(** [payload.data]; [refresh_token] is [None] when the key is not set. *)
Record Data : Type := mkData {
  access_token : string;
  data_expires : Z;
  refresh_token : option string
}.

Record Response : Type := mkResponse {
  cookies : list Cookie;
  payload : Data
}.

Definition string_of (f : option Field) : option string :=
  match f with
  | Some (Str s) => Some s
  | _ => None
  end.

Section Handler.

Variable env : Env.

(** [ms(ttl)]: milliseconds of a duration string. *)
Variable ms : string -> option Z.

(** [error.message] of a schema failure. *)
Variable joiMessage : string * Issue -> string.

(** [authenticationService.login(provider, body, otp)] *)
Variable authenticationService_login :
  string -> Body -> option Field -> Promise Tokens.

(** The POST / handler of [createLDAPAuthRouter(provider)]. *)
Definition createLDAPAuthRouter (provider : string) (body : Body)
    : Promise Response :=
  match loginSchema body with
  | Some error => Rejected (InvalidPayloadException (joiMessage error))
  | None =>
      let mode := JS.or_string (string_of (mode body)) "json" in
      let* tokens := authenticationService_login provider body (otp body) in
      let data := mkData (accessToken tokens) (expires tokens) None in
      let data :=
        if String.eqb mode "json"
        then mkData (access_token data) (data_expires data)
                    (Some (refreshToken tokens))
        else data in
      let cookies :=
        if String.eqb mode "cookie"
        then [mkCookie (REFRESH_TOKEN_COOKIE_NAME env) (refreshToken tokens)
                (mkCookieOptions
                   true
                   (REFRESH_TOKEN_COOKIE_DOMAIN env)
                   (ms (REFRESH_TOKEN_TTL env))
                   (JS.nullish (REFRESH_TOKEN_COOKIE_SECURE env) false)
                   (JS.or_string (REFRESH_TOKEN_COOKIE_SAME_SITE env) "strict"))]
        else [] in
      Resolved (mkResponse cookies data)
  end.

End Handler.

End Router.

(* ===================================================================== *)
(** ** The client session and its refresh timer                          *)
(* ===================================================================== *)

Module SDK.

(** What the server answers to a login or a refresh. *)
Record AuthResult : Type := mkAuthResult {
  access_token : string;
  refresh_token : string;
  expires : nat
}.

Record Options : Type := mkOptions {
  autoRefresh : bool;
  msRefreshBeforeExpires : nat
}.

Inductive Request : Type :=
| LoginRequest (email password mode : string)
| RefreshRequest (refresh_token : string)
| LogoutRequest (refresh_token : string).

(** Modelled from the spec: the per-session state machine of the client
    (Unauthenticated, Active, Expired); the SDK's own source is not among
    the sources, only its test is. *)
Inductive State : Type :=
| Unauthenticated
| Active (auth_token auth_refresh_token : string) (auth_expires expires_at : nat)
| Expired.

(** Modelled from the spec: a client instance, with its clock in
    milliseconds, its single timer (the time it is due) and the requests
    it has sent, oldest first, each with the time it was sent at. *)
Record Client : Type := mkClient {
  now : nat;
  state : State;
  timer : option nat;
  sent : list (nat * Request)
}.

Definition create (t0 : nat) : Client := mkClient t0 Unauthenticated None [].

Definition auth_token (c : Client) : option string :=
  match state c with
  | Active t _ _ _ => Some t
  | _ => None
  end.

Definition auth_expires (c : Client) : option nat :=
  match state c with
  | Active _ _ e _ => Some e
  | _ => None
  end.

Definition is_refresh (r : nat * Request) : bool :=
  match snd r with
  | RefreshRequest _ => true
  | _ => false
  end.

(** The refresh requests sent so far. *)
Definition refreshes (c : Client) : list (nat * Request) :=
  List.filter is_refresh (sent c).

Section Session.

(** The mocked HTTP server: the token pair a request is answered with,
    or [None] when it is rejected. *)
Variable server : Request -> option AuthResult.

Variable options : Options.

Definition send (c : Client) (r : Request) : Client :=
  mkClient (now c) (state c) (timer c) (sent c ++ [(now c, r)]).

(** Modelled from the spec: storing a token pair makes the session
    Active and, with auto-refresh on, arms the single timer for the
    expiry minus the configured lead time, replacing a pending one. *)
Definition store (c : Client) (r : AuthResult) : Client :=
  mkClient (now c)
           (Active (access_token r) (refresh_token r) (expires r)
                   (now c + expires r))
           (if autoRefresh options
            then Some (now c + (expires r - msRefreshBeforeExpires options))
            else None)
           (sent c).

Definition drop (c : Client) : Client :=
  mkClient (now c) Unauthenticated None (sent c).

(** Modelled from the spec: login sends the credentials in json mode;
    success stores the pair, failure leaves the client unauthenticated. *)
Definition login (email password : string) (c : Client) : Client :=
  let req := LoginRequest email password "json" in
  match server req with
  | Some r => store (send c req) r
  | None => drop (send c req)
  end.

(** Modelled from the spec: a refresh call submits the stored refresh
    token; the new pair replaces the old one, a rejection drops the
    session. *)
Definition refresh (c : Client) : Client :=
  match state c with
  | Active _ rt _ _ =>
      let req := RefreshRequest rt in
      match server req with
      | Some r => store (send c req) r
      | None => drop (send c req)
      end
  | _ => mkClient (now c) (state c) None (sent c)
  end.

(** Modelled from the spec: logout submits the stored refresh token and
    clears the session and the timer. *)
Definition logout (c : Client) : Client :=
  match state c with
  | Active _ rt _ _ => drop (send c (LogoutRequest rt))
  | _ => drop c
  end.

(** Modelled from the spec: one millisecond passes; a due timer fires
    the refresh, and without a timer a token that has reached its
    expiry leaves the session Expired. *)
Definition tick1 (c : Client) : Client :=
  let t := S (now c) in
  match timer c with
  | Some due =>
      if (due <=? t)%nat
      then refresh (mkClient t (state c) None (sent c))
      else mkClient t (state c) (timer c) (sent c)
  | None =>
      match state c with
      | Active _ _ _ at_ =>
          if (at_ <=? t)%nat then mkClient t Expired None (sent c)
          else mkClient t (state c) None (sent c)
      | _ => mkClient t (state c) None (sent c)
      end
  end.

Fixpoint tick (n : nat) (c : Client) : Client :=
  match n with
  | O => c
  | S k => tick k (tick1 c)
  end.

(** Modelled from the spec: the auto-refresh property of its testable
    properties, for a session that logs in on [c0] and is answered [r1],
    and whose refresh is answered [r2]:
    with E the expiry of [r1] and L the lead time, nothing is sent and
    the stored pair is kept until E - L after the login; at that time
    one refresh request carrying the refresh token of [r1] is sent and
    the stored pair is replaced by [r2], before the expiry of [r1]; and
    whatever is sent afterwards is sent strictly later. *)
Definition refreshed_on_schedule (c0 : Client) (email password : string)
    (r1 r2 : AuthResult) : Prop :=
  let c1 := login email password c0 in
  let wait := expires r1 - msRefreshBeforeExpires options in
  let due := now c0 + wait in
  (forall k, k < wait ->
     sent (tick k c1) = sent c1 /\
     auth_token (tick k c1) = Some (access_token r1) /\
     auth_expires (tick k c1) = Some (expires r1)) /\
  (sent (tick wait c1) = sent c1 ++ [(due, RefreshRequest (refresh_token r1))] /\
   now (tick wait c1) = due /\
   due < now c0 + expires r1 /\
   state (tick wait c1)
     = Active (access_token r2) (refresh_token r2) (expires r2)
              (due + expires r2)) /\
  (forall k, wait <= k ->
     exists later,
       sent (tick k c1)
         = sent c1 ++ (due, RefreshRequest (refresh_token r1)) :: later /\
       forall r, In r later -> due < fst r).

End Session.

End SDK.

(* ===================================================================== *)
(** ** A sample deployment                                               *)
(* ===================================================================== *)

Module Sample.

Definition config : Config :=
  mkConfig "cn=admin,dc=example,dc=org" "secret" "ou=users,dc=example,dc=org"
           "ldap" (Some "ldap://directory.example.org") None
           None None None (Some "ou=groups,dc=example,dc=org") None None.

Definition jdoeDn : string := "cn=jdoe,ou=users,dc=example,dc=org".
Definition ghostDn : string := "cn=ghost,ou=users,dc=example,dc=org".
Definition lockedDn : string := "cn=locked,ou=users,dc=example,dc=org".

Definition jdoe : User := mkUser (Some jdoeDn).
Definition ghost : User := mkUser (Some ghostDn).
Definition locked : User := mkUser (Some lockedDn).

Definition jdoeEntry : SearchEntryObject :=
  mkObject "CN=jdoe,OU=users,DC=example,DC=org"
    [("givenName", one "John");
     ("sn", many ["Doe"; "Doe-Smith"]);
     ("mail", many ["jdoe@example.org"; "john@example.org"]);
     ("userAccountControl", one "512")].

Definition lockedEntry : SearchEntryObject :=
  mkObject "CN=locked,OU=users,DC=example,DC=org"
    [("givenName", one "Lou"); ("userAccountControl", many ["528"; "0"])].

Definition adminEntry : SearchEntryObject :=
  mkObject "cn=admin,dc=example,dc=org" [].

Definition staffGroup : SearchEntryObject :=
  mkObject "cn=staff,ou=groups,dc=example,dc=org" [("cn", many ["Staff"; "Editors"])].

Definition adminsGroup : SearchEntryObject :=
  mkObject "cn=admins,ou=groups,dc=example,dc=org" [("cn", one "ADMINS")].

Definition done : SearchEvent := searchEnd (Some (mkResult 0)).

(** The directory as the shared bind client sees it. *)
Definition search (base : option string) (options : SearchOptions) : SearchResponse :=
  match base with
  | None => SearchThrows (mkError (OtherError "TypeError") "base must be a string")
  | Some b =>
      if String.eqb b (bindDn config) then SearchStarted [searchEntry adminEntry; done]
      else if String.eqb b (userDn config) then
        match filter options with
        | Some (_, v) =>
            if String.eqb v "jdoe" then SearchStarted [searchEntry jdoeEntry; done]
            else SearchStarted [done]
        | None => SearchStarted [done]
        end
      else if String.eqb b jdoeDn then SearchStarted [searchEntry jdoeEntry; done]
      else if String.eqb b lockedDn then SearchStarted [searchEntry lockedEntry; done]
      else if String.eqb b "ou=groups,dc=example,dc=org" then
        SearchStarted [searchEntry staffGroup; searchEntry adminsGroup; done]
      else SearchStarted [searchEnd (Some (mkResult 32))]
  end.

Definition rebind (name password : string) : option Error := None.

Definition digit (c : ascii) : option Z :=
  let n := nat_of_ascii c in
  if (48 <=? n)%nat && (n <=? 57)%nat then Some (Z.of_nat (n - 48)) else None.

Fixpoint decimal (acc : Z) (s : string) : JS.number :=
  match s with
  | EmptyString => JS.int acc
  | String c rest =>
      match digit c with
      | Some d => decimal (10 * acc + d) rest
      | None => JS.NaN
      end
  end.

(** [Number] on the strings of decimal digits the sample directory holds. *)
Definition parseNumber (s : string) : JS.number := decimal 0 s.

Definition database : DB.Database :=
  DB.mkDatabase
    [DB.mkUserRow "u-1" None;
     DB.mkUserRow "u-2" (Some "CN=JDoe,OU=Users,DC=example,DC=org")]
    [DB.mkRoleRow "r-admin" "Admins";
     DB.mkRoleRow "r-editor" "editors";
     DB.mkRoleRow "r-guest" "Guests"].

Definition emptyDatabase : DB.Database :=
  DB.mkDatabase [] (DB.directus_roles database).

Definition data_string (data : JS.object) (k : string) : option string :=
  match JS.get data k with
  | Some (JS.VString s) => Some s
  | _ => None
  end.

(** A users service that stores what it is given: an update leaves the
    key columns alone, a create appends a row. *)
Definition usersService (c : ServiceCall) (d : DB.Database)
    : Promise unit * DB.Database :=
  match c with
  | updateOne _ _ => (Resolved tt, d)
  | createOne data =>
      (Resolved tt,
       DB.mkDatabase
         (DB.directus_users d ++
            [DB.mkUserRow "u-new" (data_string data "external_identifier")])
         (DB.directus_roles d))
  end.

Definition world : World := mkWorld database [].

Definition econnrefused : Error :=
  mkError (OtherError "Error") "connect ECONNREFUSED 127.0.0.1:389".

Definition badPassword : Error :=
  mkError InvalidCredentialsError "Invalid Credentials".

(** The router's environment and collaborators. *)
Definition env : Router.Env :=
  Router.mkEnv "directus_refresh_token" None "7d" None None.

Definition ms (ttl : string) : option Z :=
  if String.eqb ttl "7d" then Some 604800000%Z else None.

Definition joiMessage (error : string * Router.Issue) : string :=
  fst error ++ " is invalid".

Definition tokens : Router.Tokens := Router.mkTokens "AT1" "RT1" 900000.

Definition authenticationService_login (provider : string) (body : Router.Body)
    (otp : option Router.Field) : Promise Router.Tokens :=
  match Router.identifier body, Router.password body with
  | Some (Router.Str "jdoe"), Some (Router.Str "pw") => Resolved tokens
  | _, _ => Rejected InvalidCredentialsException
  end.

Definition cookieLogin : Router.Body :=
  Router.mkBody (Some (Router.Str "jdoe")) (Some (Router.Str "pw"))
                (Some (Router.Str "cookie")) None.

Definition plainLogin : Router.Body :=
  Router.mkBody (Some (Router.Str "jdoe")) (Some (Router.Str "pw")) None None.

(** The mocked server of the auto-refresh scenario. *)
Definition server (r : SDK.Request) : option SDK.AuthResult :=
  match r with
  | SDK.LoginRequest _ _ _ => Some (SDK.mkAuthResult "AT1" "RT1" 5000)
  | SDK.RefreshRequest rt =>
      if String.eqb rt "RT1" then Some (SDK.mkAuthResult "AT2" "RT2" 5000)
      else None
  | SDK.LogoutRequest _ => None
  end.

Definition options : SDK.Options := SDK.mkOptions true 2500.

(** The same session without lead time, with a lead time as long as the
    life of the token, and with a longer one. *)
Definition noLead : SDK.Options := SDK.mkOptions true 0.
Definition fullLead : SDK.Options := SDK.mkOptions true 5000.
Definition longLead : SDK.Options := SDK.mkOptions true (5000 + 2500).

End Sample.

(* ===================================================================== *)
(** ** Construction of the driver                                        *)
(* ===================================================================== *)

(** ToBoolean on a property value. *)
Definition truthy_value (v : JS.value) : bool :=
  match v with
  | JS.VString s => JS.truthy_string s
  | JS.VBool b => b
  | JS.VNumber n => JS.truthy n
  | JS.VNull => false
  | JS.VUndefined => false
  end.

(** The provider configuration as the constructor receives it: any key
    may be missing. *)
Record ProviderConfig : Type := mkProviderConfig {
  given_bindDn : option string;
  given_bindPassword : option string;
  given_userDn : option string;
  given_provider : option string;
  given_clientUrl : option string;
  given_client : option JS.object;
  given_userAttribute : option string;
  given_userScope : option string;
  given_mailAttribute : option string;
  given_groupDn : option string;
  given_groupAttribute : option string;
  given_groupScope : option string
}.

(** What [new LDAPAuthDriver(options, config)] ends in: the InvalidConfig
    exception of its guard, the error [ldap.createClient] throws on the
    options it is given, or the driver with its configuration and the
    options its shared bind client was created with. *)
Inductive Construction : Type :=
| InvalidProviderConfig (msg : string) (provider : option string)
| ClientCreationThrows (err : Error)
| Constructed (config : Config) (bindClient : JS.object).

(** [config.client?.socketPath] as a condition *)
Definition has_socketPath (client : option JS.object) : bool :=
  match client with
  | Some o =>
      match JS.get o "socketPath" with
      | Some v => truthy_value v
      | None => false
      end
  | None => false
  end.

(** The condition under which the constructor throws InvalidConfig. *)
Definition guard (given : ProviderConfig) : bool :=
  negb (JS.truthy_opt (given_bindDn given))
  || negb (JS.truthy_opt (given_bindPassword given))
  || negb (JS.truthy_opt (given_userDn given))
  || negb (JS.truthy_opt (given_provider given))
  || (negb (JS.truthy_opt (given_clientUrl given))
      && negb (has_socketPath (given_client given))).

(** The options the shared bind client is created with:
    [{ url: clientUrl, reconnect: true, ...clientConfig }]. *)
Definition bindClientOptions (given : ProviderConfig) : JS.object :=
  JS.assign [("reconnect", JS.VBool true);
             ("url", JS.of_opt_string (given_clientUrl given))]
            (match given_client given with
             | Some o => o
             | None => []
             end).

(** [constructor]; [createClient_throws] is the error [ldap.createClient]
    throws on given options, if it throws (a url it cannot parse, a url
    together with a socket path). *)
Definition constructor (createClient_throws : JS.object -> option Error)
    (given : ProviderConfig) : Construction :=
  if guard given
  then InvalidProviderConfig "Invalid provider config" (given_provider given)
  else
    match createClient_throws (bindClientOptions given) with
    | Some err => ClientCreationThrows err
    | None =>
        Constructed
          (mkConfig (JS.nullish (given_bindDn given) "")
                    (JS.nullish (given_bindPassword given) "")
                    (JS.nullish (given_userDn given) "")
                    (JS.nullish (given_provider given) "")
                    (given_clientUrl given) (given_client given)
                    (given_userAttribute given) (given_userScope given)
                    (given_mailAttribute given) (given_groupDn given)
                    (given_groupAttribute given) (given_groupScope given))
          (bindClientOptions given)
    end.

(** A required key of the provider configuration is missing or empty, or
    the configuration has neither a url nor a socket path. *)
Definition incomplete (given : ProviderConfig) : Prop :=
  JS.truthy_opt (given_bindDn given) = false \/
  JS.truthy_opt (given_bindPassword given) = false \/
  JS.truthy_opt (given_userDn given) = false \/
  JS.truthy_opt (given_provider given) = false \/
  (JS.truthy_opt (given_clientUrl given) = false /\
   has_socketPath (given_client given) = false).

(** How many times the bind callback runs among the events of a client. *)
Definition bindCallbacks (events : list ClientEvent) : nat :=
  length (List.filter (fun ev => match ev with
                                 | bindCallback _ => true
                                 | clientError _ => false
                                 end) events).

(** What a single event settles the promise of [verify] with. *)
Definition settled_by (ev : ClientEvent) : Promise unit :=
  match ev with
  | clientError err => Rejected (handleError err)
  | bindCallback (Some err) => Rejected (handleError err)
  | bindCallback None => Resolved tt
  end.

(** The fixed taxonomy of the driver's own rejections. *)
Definition in_taxonomy (provider : string) (x : Thrown) : Prop :=
  x = InvalidCredentialsException \/
  (exists cause,
     x = ServiceUnavailableException "Service returned unexpected error" "ldap" cause) \/
  x = InvalidConfigException "Invalid bind user" provider \/
  x = UnexpectedResponseException "Failed to find bind user record".

(** The comparison the lookup of a user makes: the stored external
    identifier, lowered by the database, equals the distinguished name,
    lowered by the runtime. *)
Definition same_dn (toLowerCase LOWER : string -> string)
    (stored : option string) (userDn : string) : Prop :=
  exists s, stored = Some s /\ LOWER s = toLowerCase userDn.

(** A stored external identifier equals a distinguished name up to the
    case of its letters. *)
Definition caseless_dn (stored : option string) (userDn : string) : Prop :=
  exists s, stored = Some s /\ ASCII.caseless s userDn.

(** [uid] is the id of the first user of the table that the lookup's
    comparison links to the distinguished name. *)
Definition first_linked (toLowerCase LOWER : string -> string)
    (d : DB.Database) (userDn uid : string) : Prop :=
  exists before row after,
    DB.directus_users d = before ++ row :: after /\
    DB.id row = uid /\
    same_dn toLowerCase LOWER (DB.external_identifier row) userDn /\
    forall r, In r before ->
              ~ same_dn toLowerCase LOWER (DB.external_identifier r) userDn.

Module Fixture.

Definition given : ProviderConfig :=
  mkProviderConfig (Some "cn=admin,dc=example,dc=org") (Some "secret")
                   (Some "ou=users,dc=example,dc=org") (Some "ldap")
                   None
                   (Some [("socketPath", JS.VString "/var/run/ldapi");
                          ("reconnect", JS.VBool false)])
                   None None None None None None.

(** A deployment that names both a url and a socket path, and a client
    library that refuses the two together. *)
Definition urlAndSocket : ProviderConfig :=
  mkProviderConfig (Some "cn=admin,dc=example,dc=org") (Some "secret")
                   (Some "ou=users,dc=example,dc=org") (Some "ldap")
                   (Some "ldap://directory.example.org")
                   (Some [("socketPath", JS.VString "/var/run/ldapi")])
                   None None None None None None.

Definition urlOrSocket (options : JS.object) : option Error :=
  match JS.get options "url", JS.get options "socketPath" with
  | Some (JS.VString _), Some (JS.VString _) =>
      Some (mkError (OtherError "TypeError")
                    "options.url ^ options.socketPath (String) required")
  | _, _ => None
  end.

(** A deployment whose client options ask for reconnection. *)
Definition reconnecting : Config :=
  mkConfig "cn=admin,dc=example,dc=org" "secret" "ou=users,dc=example,dc=org"
           "ldap" (Some "ldap://directory.example.org")
           (Some [("reconnect", JS.VBool true); ("timeout", JS.VNumber (JS.int 5000))])
           None None None None None None.

(** The sample deployment without a group search root. *)
Definition withoutGroups : Config :=
  mkConfig "cn=admin,dc=example,dc=org" "secret" "ou=users,dc=example,dc=org"
           "ldap" (Some "ldap://directory.example.org") None
           None None None None None None.

Definition operationsError : Error := mkError OperationsError "Operations Error".

(** A directory whose shared connection has lost its bind. *)
Definition unbound (base : option string) (options : SearchOptions) : SearchResponse :=
  SearchStarted [searchError operationsError].

Definition rejectingBind (name password : string) : option Error :=
  Some Sample.badPassword.

End Fixture.

(** An end event that settles nothing in the health check: no result, or
    a status other than 0. *)
Definition quiet (ev : SearchEvent) : Prop :=
  ev = searchEnd None \/ exists r, ev = searchEnd (Some r) /\ status r <> 0%Z.

(** The value written for a role: its id, or [absent] when there is none. *)
Definition role_value (r : option DB.role_row) (absent : JS.value) : JS.value :=
  match r with
  | Some r => JS.VString (DB.role_id r)
  | None => absent
  end.

(** The object [getUserID] hands to [createOne]. *)
Definition newUser (config : Config) (userDn : string) (userInfo : UserInfo)
    (userRole : option DB.role_row) : JS.object :=
  [("provider", JS.VString (provider config));
   ("first_name", JS.of_opt_string (firstName userInfo));
   ("last_name", JS.of_opt_string (lastName userInfo));
   ("email", JS.of_opt_string (email userInfo));
   ("external_identifier", JS.VString userDn);
   ("role", role_value userRole JS.VUndefined)].

(** The search [fetchUserDn] issues for an identifier. *)
Definition userSearch (config : Config) (identifier : string) : SearchOptions :=
  mkSearchOptions (Some (JS.nullish (userAttribute config) "cn", identifier))
                  (Some (JS.nullish (userScope config) "one"))
                  [].

(** The attributes [fetchUserInfo] asks for. *)
Definition infoSearch (config : Config) : SearchOptions :=
  mkSearchOptions None None
    ["givenName"; "sn"; JS.nullish (mailAttribute config) "mail";
     "userAccountControl"].

(** A raw error that a call of [search] threw. *)
Definition thrown_by_search
    (search : option string -> SearchOptions -> SearchResponse) (x : Thrown)
    : Prop :=
  exists e base options, x = RawError e /\ search base options = SearchThrows e.

(** The search [fetchUserGroups] issues for a distinguished name. *)
Definition groupSearch (config : Config) (userDn : string) : SearchOptions :=
  mkSearchOptions (Some (JS.nullish (groupAttribute config) "member", userDn))
                  (Some (JS.nullish (groupScope config) "one"))
                  ["cn"].

(** A member of the login body that is a string and not the empty one. *)
Definition nonempty_string (f : option Router.Field) : Prop :=
  exists s, f = Some (Router.Str s) /\ s <> "".

(* ===================================================================== *)
(** ** The date helper of the Oracle dialect                             *)
(* ===================================================================== *)

Module DateHelperOracle.

(** [knex.raw(sql, bindings)]: the statement and what its placeholders
    are bound to. *)
Record Raw : Type := mkRaw {
  sql : string;
  bindings : list string
}.

Definition year (table column : string) : Raw :=
  mkRaw "TO_CHAR(??.??, 'IYYY')" [table; column].

Definition month (table column : string) : Raw :=
  mkRaw "TO_CHAR(??.??, 'MM')" [table; column].

Definition week (table column : string) : Raw :=
  mkRaw "TO_CHAR(??.??, 'IW')" [table; column].

Definition day (table column : string) : Raw :=
  mkRaw "TO_CHAR(??.??, 'DD')" [table; column].

Definition weekday (table column : string) : Raw :=
  mkRaw "TO_CHAR(??.??, 'D')" [table; column].

Definition hour (table column : string) : Raw :=
  mkRaw "TO_CHAR(??.??, 'HH24')" [table; column].

Definition minute (table column : string) : Raw :=
  mkRaw "TO_CHAR(??.??, 'MI')" [table; column].

Definition second (table column : string) : Raw :=
  mkRaw "TO_CHAR(??.??, 'SS')" [table; column].

(** The methods of the helper, by the part of the date they extract. *)
Inductive Part : Type :=
| Year | Month | Week | Day | Weekday | Hour | Minute | Second.

Definition extract (p : Part) : string -> string -> Raw :=
  match p with
  | Year => year
  | Month => month
  | Week => week
  | Day => day
  | Weekday => weekday
  | Hour => hour
  | Minute => minute
  | Second => second
  end.

(** The identifier placeholders [??] of a statement, read left to right. *)
Fixpoint placeholders (s : string) : nat :=
  match s with
  | String "?" (String "?" rest) => S (placeholders rest)
  | String _ rest => placeholders rest
  | EmptyString => 0
  end.

End DateHelperOracle.

(* ===================================================================== *)
(** ** The layers of the map layout                                      *)
(* ===================================================================== *)

Module MapStyle.

Import QArith.

(** A layer filter: [['all', f, ...]], [['has', key]], [['!has', key]]
    and [['==', key, value]]. *)
#[warnings="-register-all"]
Inductive Filter : Type :=
| all (filters : list Filter)
| has (key : string)
| not_has (key : string)
| equals (key value : string).

(** [['boolean', ['feature-state', name], fallback]] *)
Inductive Condition : Type :=
| boolean_feature_state (name : string) (fallback : bool).

Inductive Literal : Type :=
| number (q : Q)
| text (s : string).

(** The value of a paint or layout property: a literal, a list of
    strings, [['case', c1, o1, ..., fallback]] or
    [['step', ['get', key], o0, s1, o1, ...]]. *)
Inductive Expression : Type :=
| literal (l : Literal)
| texts (l : list string)
| case (branches : list (Condition * Literal)) (fallback : Literal)
| step (key : string) (base : Literal) (stops : list (Q * Literal)).

Record Layer : Type := mkLayer {
  id : string;
  type : string;
  source : string;
  filter : Filter;
  paint : list (string * Expression);
  layout : list (string * Expression)
}.

(** The colours the style sheet exports. *)
Record Colors : Type := mkColors {
  green : string;
  orange : string;
  yellow : string;
  black : string;
  white : string
}.

Definition selected_or_hovered (highlight base : string) : Expression :=
  case [(boolean_feature_state "selected" false, text highlight);
        (boolean_feature_state "hovered" false, text highlight)]
       (text base).

Definition plain (geometry : string) : Filter :=
  all [not_has "point_count"; equals "$type" geometry].

(** [layers] *)
Definition layers (c : Colors) : list Layer :=
  [mkLayer "__directus_polygons_outline" "line" "__directus" (plain "Polygon")
     [("line-color", selected_or_hovered (orange c) (green c));
      ("line-width", literal (number 2))]
     [("line-join", literal (text "round"))];
   mkLayer "__directus_polygons" "fill" "__directus" (plain "Polygon")
     [("fill-color", selected_or_hovered (yellow c) (green c));
      ("fill-opacity", literal (number (15 # 100)))]
     [];
   mkLayer "__directus_lines" "line" "__directus" (plain "LineString")
     [("line-color", selected_or_hovered (orange c) (green c));
      ("line-width", literal (number 2))]
     [];
   mkLayer "__directus_points_shadow" "circle" "__directus" (plain "Point")
     [("circle-radius", literal (number 10));
      ("circle-blur", literal (number 1));
      ("circle-opacity", literal (number (9 # 10)));
      ("circle-color", literal (text (black c)))]
     [];
   mkLayer "__directus_points" "circle" "__directus" (plain "Point")
     [("circle-radius", literal (number 6));
      ("circle-color", selected_or_hovered (orange c) (green c));
      ("circle-stroke-color", literal (text (white c)));
      ("circle-stroke-width", literal (number 2))]
     [];
   mkLayer "__directus_clusters" "circle" "__directus" (has "point_count")
     [("circle-radius",
       step "point_count" (number 20) [(100, number 30); (750, number 40)]);
      ("circle-color",
       step "point_count" (text "#7fe3ca")
            [(100, text "#fde2a7"); (750, text "#f0a7b3")]);
      ("circle-opacity", literal (number (7 # 10)))]
     [];
   mkLayer "__directus_cluster_count" "symbol" "__directus" (has "point_count")
     [("text-opacity", literal (number (85 # 100)))]
     [("text-field", literal (text "{point_count_abbreviated}"));
      ("text-font", texts ["Open Sans Semibold"]);
      ("text-size",
       step "point_count" (number 15) [(100, number 17); (750, number 19)])]].

(** *** The features a layer is evaluated on *)

Inductive Geometry : Type := Point | LineString | Polygon.

Definition type_name (g : Geometry) : string :=
  match g with
  | Point => "Point"
  | LineString => "LineString"
  | Polygon => "Polygon"
  end.

Inductive Property : Type :=
| numeric (z : Z)
| textual (s : string).

Record Feature : Type := mkFeature {
  geometry : Geometry;
  properties : list (string * Property);
  state : list (string * bool)
}.

Fixpoint lookup {A : Type} (l : list (string * A)) (k : string) : option A :=
  match l with
  | [] => None
  | (k', v) :: rest => if String.eqb k k' then Some v else lookup rest k
  end.

(** Whether a feature passes a filter; [$type] is the geometry type. *)
Fixpoint passes (f : Filter) (feature : Feature) : bool :=
  match f with
  | all filters => forallb (fun g => passes g feature) filters
  | has key =>
      match lookup (properties feature) key with
      | Some _ => true
      | None => false
      end
  | not_has key =>
      match lookup (properties feature) key with
      | Some _ => false
      | None => true
      end
  | equals key value =>
      if String.eqb key "$type"
      then String.eqb (type_name (geometry feature)) value
      else match lookup (properties feature) key with
           | Some (textual s) => String.eqb s value
           | _ => false
           end
  end.

Definition holds (c : Condition) (feature : Feature) : bool :=
  match c with
  | boolean_feature_state name fallback =>
      match lookup (state feature) name with
      | Some b => b
      | None => fallback
      end
  end.

(** The output of a step expression: the base below the first stop,
    otherwise the output of the last stop that the input has reached. *)
Fixpoint step_output (input : Q) (current : Literal) (stops : list (Q * Literal))
    : Literal :=
  match stops with
  | [] => current
  | (stop, output) :: rest =>
      if Qle_bool stop input then step_output input output rest else current
  end.

Fixpoint first_case (branches : list (Condition * Literal)) (fallback : Literal)
    (feature : Feature) : Literal :=
  match branches with
  | [] => fallback
  | (c, output) :: rest =>
      if holds c feature then output else first_case rest fallback feature
  end.

(** The value of a property on a feature; a step over something that is
    not a number has none. *)
Definition evaluate (e : Expression) (feature : Feature) : option Literal :=
  match e with
  | literal l => Some l
  | texts _ => None
  | case branches fallback => Some (first_case branches fallback feature)
  | step key base stops =>
      match lookup (properties feature) key with
      | Some (numeric z) => Some (step_output (inject_Z z) base stops)
      | _ => None
      end
  end.

(** The layers that draw a feature, in drawing order. *)
Definition drawn_by (c : Colors) (feature : Feature) : list string :=
  map id (List.filter (fun l => passes (filter l) feature) (layers c)).

(** The value a layer gives a paint or layout property on a feature. *)
Definition styled (c : Colors) (layer property : string) (feature : Feature)
    : option Literal :=
  match List.filter (fun l => String.eqb (id l) layer) (layers c) with
  | l :: _ =>
      match lookup (paint l ++ layout l) property with
      | Some e => evaluate e feature
      | None => None
      end
  | [] => None
  end.

Definition is_cluster (feature : Feature) : bool :=
  match lookup (properties feature) "point_count" with
  | Some _ => true
  | None => false
  end.

Definition highlighted (feature : Feature) : bool :=
  holds (boolean_feature_state "selected" false) feature
  || holds (boolean_feature_state "hovered" false) feature.

End MapStyle.

Module Scenario.

(** The sample directory with a group search that breaks off. *)
Definition brokenGroups (base : option string) (options : SearchOptions)
    : SearchResponse :=
  match base with
  | Some b =>
      if String.eqb b "ou=groups,dc=example,dc=org"
      then SearchStarted [searchEntry Sample.staffGroup;
                          searchError Sample.econnrefused]
      else Sample.search base options
  | None => Sample.search base options
  end.

(** The world after the first login of the sample user on an empty
    users table. *)
Definition afterFirstLogin : World :=
  mkWorld
    (DB.mkDatabase
       [DB.mkUserRow "u-new" (Some "cn=jdoe,ou=users,dc=example,dc=org")]
       (DB.directus_roles Sample.database))
    [createOne (newUser Sample.config "cn=jdoe,ou=users,dc=example,dc=org"
                        (userInfoOf Sample.parseNumber Sample.config Sample.jdoeEntry)
                        (Some (DB.mkRoleRow "r-admin" "Admins")))].

Definition colors : MapStyle.Colors :=
  MapStyle.mkColors "#2ecda7" "#f7971c" "#ffc107" "#000000" "#ffffff".

Definition cluster : MapStyle.Feature :=
  MapStyle.mkFeature MapStyle.Point
    [("cluster", MapStyle.textual "true"); ("point_count", MapStyle.numeric 120)]
    [].

End Scenario.

(** Decides [ASCII.only] on a literal. *)
Ltac ascii_only :=
  cbn [ASCII.only DB.name]; repeat split; apply Nat.ltb_lt; reflexivity.

(* ===================================================================== *)
(** ** Properties of the driver                                          *)
(* ===================================================================== *)

(** The errors a per-verification client reports, by either route. *)
Definition errors_of (events : list ClientEvent) : list Error :=
  flat_map (fun ev => match ev with
                      | clientError e => [e]
                      | bindCallback (Some e) => [e]
                      | bindCallback None => []
                      end) events.

(** A bind failure: bad credentials, inappropriate authentication or
    insufficient access rights. *)
Definition bind_failure (e : Error) : Prop :=
  class e = InvalidCredentialsError \/
  class e = InappropriateAuthenticationError \/
  class e = InsufficientAccessRightsError.

(** Flag [f] is set in the bitmask [v]. *)
Definition flag_set (v f : Z) : Prop := Z.land v f <> 0%Z.

(** A display attribute and its single representative: the value itself
    when it is a scalar, the first element when it is a list. *)
Definition normalized (x : option AttrValue) (r : option string) : Prop :=
  match x with
  | Some (one s) => r = Some s
  | Some (many l) => r = hd_error l
  | None => r = None
  end.

(** The group names one group entry contributes: every element of a
    list-valued [cn], the scalar [cn] itself. *)
Definition cn_values (o : SearchEntryObject) : list string :=
  match prop o "cn" with
  | Some (many l) => l
  | Some (one s) => if JS.truthy_string s then [s] else []
  | None => []
  end.



Lemma handleError_bind_failure (e : Error) :
  handleError e = InvalidCredentialsException <-> bind_failure e.
Proof.
  unfold handleError, bind_failure.
  destruct (class e); split; intros H; try reflexivity; try discriminate; auto;
    destruct H as [H | [H | H]]; discriminate.
Qed.

Lemma handleError_transport (e : Error) :
  handleError e =
    ServiceUnavailableException "Service returned unexpected error" "ldap" (message e)
  <-> ~ bind_failure e.
Proof.
  unfold handleError, bind_failure.
  destruct (class e); split; intros H; try reflexivity; try discriminate;
    try (intros [K | [K | K]]; discriminate);
    exfalso; apply H; auto.
Qed.

Lemma verify_step_calls (run : VerifyRun) (events : list ClientEvent) :
  exists more,
    calls (fold_left verify_step events run) = calls run ++ more /\
    (forall c, In c more -> c = destroy) /\
    (In destroy more <-> exists err, In (bindCallback err) events).
Proof.
  revert run. induction events as [| ev events IH]; intros run.
  - exists []. simpl. rewrite app_nil_r. repeat split; try contradiction.
    intros (err & []).
  - destruct (IH (verify_step run ev)) as (more & Hc & Hall & Hin).
    cbn [fold_left]. rewrite Hc.
    destruct ev as [e | err]; cbn [verify_step calls].
    + exists more. repeat split; auto.
      * intros H. apply Hin in H. destruct H as (err & H). exists err. now right.
      * intros (err & [K | K]); [discriminate | apply Hin; eauto].
    + exists (destroy :: more).
      assert (E : calls (verify_step run (bindCallback err)) = calls run ++ [destroy])
        by (destruct err; reflexivity).
      cbn [verify_step calls] in E. rewrite E, <- app_assoc. repeat split.
      * intros c [K | K]; auto.
      * intros _. exists err. now left.
      * intros _. now left.
Qed.

Lemma verify_step_outcome (run : VerifyRun) (events : list ClientEvent) :
  outcome (fold_left verify_step events run) = outcome run \/
  outcome (fold_left verify_step events run) = Resolved tt \/
  exists e, In e (errors_of events) /\
            outcome (fold_left verify_step events run) = Rejected (handleError e).
Proof.
  revert run. induction events as [| ev events IH]; intros run; simpl.
  - now left.
  - destruct (IH (verify_step run ev)) as [H | [H | (e & Hin & H)]].
    + rewrite H. destruct ev as [e | [e |]]; simpl;
        destruct (outcome run) eqn:E; simpl; auto;
        right; right; exists e; split; auto; apply in_or_app; left; now left.
    + auto.
    + right; right. exists e. split; [| exact H].
      apply in_or_app. now right.
Qed.

Lemma verify_settled_early (run : VerifyRun) (events : list ClientEvent) :
  outcome run <> Pending ->
  outcome (fold_left verify_step events run) = outcome run.
Proof.
  revert run. induction events as [| ev events IH]; intros run Hs; simpl.
  - reflexivity.
  - assert (Hstep : outcome (verify_step run ev) = outcome run).
    { destruct ev as [e | [e |]]; simpl; destruct (outcome run); simpl; congruence. }
    rewrite IH; rewrite Hstep; auto.
Qed.

(** C2. Every error of a directory-backed verification is translated: a
    bind failure (bad credentials, inappropriate authentication,
    insufficient access rights) becomes InvalidCredentials, any other
    error becomes ServiceUnavailable with the service name and the
    underlying message; what [verify] rejects with is one of these two,
    never the raw error, and the two differ in kind. A bind that fails
    first makes [verify] reject: with InvalidCredentials for a bind
    failure, with ServiceUnavailable for any other error, and so does an
    error the client reports first. *)
Theorem verify_translates_directory_errors :
  (forall e : Error,
     (handleError e = InvalidCredentialsException <-> bind_failure e) /\
     (handleError e =
        ServiceUnavailableException "Service returned unexpected error" "ldap"
                                    (message e)
      <-> ~ bind_failure e)) /\
  (forall config user password events x,
     outcome (verify config user password events) = Rejected x ->
     (x = InvalidCredentialsException \/
      exists e, In e (errors_of events) /\ ~ bind_failure e /\
                x = ServiceUnavailableException
                      "Service returned unexpected error" "ldap" (message e)) /\
     (forall e, x <> RawError e) /\
     is_InvalidCredentialsException x = negb (is_ServiceUnavailableException x)) /\
  (forall config user name pw e rest,
     external_identifier user = Some name ->
     JS.truthy_string name = true -> JS.truthy_string pw = true ->
     (bind_failure e ->
      outcome (verify config user (Some pw) (bindCallback (Some e) :: rest))
      = Rejected InvalidCredentialsException) /\
     (~ bind_failure e ->
      outcome (verify config user (Some pw) (bindCallback (Some e) :: rest))
      = Rejected (ServiceUnavailableException
                    "Service returned unexpected error" "ldap" (message e))) /\
     outcome (verify config user (Some pw) (clientError e :: rest))
     = Rejected (handleError e)).
Proof.
  split; [| split].
  - intros e. split; [apply handleError_bind_failure | apply handleError_transport].
  - intros config user password events x H.
    assert (Hx : x = InvalidCredentialsException \/
                 exists e, In e (errors_of events) /\ x = handleError e).
    { unfold verify in H.
      destruct (external_identifier user) as [name |]; simpl in H;
        [destruct password as [pw |]; simpl in H |];
        try (left; congruence).
      destruct (JS.truthy_string name && JS.truthy_string pw); simpl in H;
        try (left; congruence).
      match type of H with
      | outcome (fold_left verify_step events ?r) = _ =>
          destruct (verify_step_outcome r events) as [K | [K | (e & Hin & K)]]
      end; rewrite K in H; simpl in H; try discriminate.
      right. exists e. split; congruence. }
    assert (Hcases : x = InvalidCredentialsException \/
              exists e, In e (errors_of events) /\ ~ bind_failure e /\
                x = ServiceUnavailableException
                      "Service returned unexpected error" "ldap" (message e)).
    { destruct Hx as [Hx | (e & Hin & Hx)]; [now left |].
      destruct (handleError e) eqn:E; subst x;
        try (left; reflexivity);
        right; exists e; (split; [exact Hin |]);
        unfold handleError in E; unfold bind_failure;
        destruct (class e); try discriminate;
        (split; [intros [K | [K | K]]; discriminate | symmetry; exact E]). }
    split; [exact Hcases |].
    destruct Hcases as [-> | (e & _ & _ & ->)]; split;
      try reflexivity; intros e'; discriminate.
  - intros config user name pw e rest Hn Tn Tp.
    assert (F : forall ev,
              ev = bindCallback (Some e) \/ ev = clientError e ->
              outcome (verify config user (Some pw) (ev :: rest))
              = Rejected (handleError e)).
    { intros ev Hev. unfold verify. rewrite Hn, Tn, Tp. cbn [andb fold_left].
      rewrite verify_settled_early; destruct Hev as [-> | ->];
        cbn [verify_step outcome settle]; try reflexivity; discriminate. }
    repeat split.
    + intros B. rewrite F by now left. f_equal. now apply handleError_bind_failure.
    + intros B. rewrite F by now left. f_equal. now apply handleError_transport.
    + apply F. now right.
Qed.

(** Past the guard, the client of a verification is destroyed exactly
    when its bind callback runs, with or without an error. *)
Lemma verify_destroys_iff_bind_callback (config : Config) (user : User)
    (name pw : string) (events : list ClientEvent) :
  external_identifier user = Some name ->
  JS.truthy_string name = true -> JS.truthy_string pw = true ->
  In destroy (calls (verify config user (Some pw) events)) <->
  exists err, In (bindCallback err) events.
Proof.
  intros Hn Tn Tp. unfold verify. rewrite Hn, Tn, Tp. cbn [andb].
  match goal with
  | |- In destroy (calls (fold_left verify_step events ?r)) <-> _ =>
      destruct (verify_step_calls r events) as (more & Hc & _ & Hd)
  end.
  rewrite Hc, <- Hd. cbn [calls]. split.
  - intros H. apply in_app_or in H. destruct H as [H | H]; [| exact H].
    destruct H as [H | [H | [H | []]]]; discriminate.
  - intros H. apply in_or_app. now right.
Qed.


(** C10. Without an external identifier, or with a password that is
    absent or empty, [verify] throws InvalidCredentials and has made no
    call on the directory client: no client is created, no bind is
    attempted, whatever the directory would have answered. *)
Theorem verify_rejects_before_connecting (config : Config) (user : User)
    (password : option string) (events : list ClientEvent)
    (H : JS.truthy_opt (external_identifier user) = false \/
         JS.truthy_opt password = false) :
  outcome (verify config user password events) =
    Rejected InvalidCredentialsException /\
  calls (verify config user password events) = [] /\
  (forall options, ~ In (createClient options) (calls (verify config user password events))) /\
  (forall name pw, ~ In (bind name pw) (calls (verify config user password events))).
Proof.
  assert (E : verify config user password events =
              mkVerifyRun (Rejected InvalidCredentialsException) []).
  { unfold verify.
    destruct (external_identifier user) as [name |]; [| reflexivity].
    destruct password as [pw |]; [| reflexivity].
    simpl in H.
    destruct H as [H | H]; rewrite H; [| rewrite andb_false_r]; reflexivity. }
  rewrite E. simpl. repeat split; auto.
Qed.

(** *** The account-control bitmask *)

Lemma land_pow2 (v k : Z) :
  (0 <= k)%Z ->
  Z.land v (2 ^ k) = if Z.testbit v k then (2 ^ k)%Z else 0%Z.
Proof.
  intros Hk. apply Z.bits_inj'. intros n Hn.
  rewrite Z.land_spec, Z.pow2_bits_eqb by exact Hk.
  destruct (Z.eqb_spec k n) as [-> | Hne].
  - destruct (Z.testbit v n) eqn:E.
    + rewrite Z.pow2_bits_eqb, Z.eqb_refl by exact Hn. reflexivity.
    + rewrite Z.bits_0. reflexivity.
  - rewrite andb_false_r. destruct (Z.testbit v k).
    + rewrite Z.pow2_bits_eqb by exact Hk.
      symmetry. apply Z.eqb_neq. exact Hne.
    + rewrite Z.bits_0. reflexivity.
Qed.

Lemma land_flags (v : Z) :
  Z.land v INVALID_ACCOUNT_FLAGS =
    Z.lor (if Z.testbit v 1 then 0x2 else 0)
          (Z.lor (if Z.testbit v 4 then 0x10 else 0)
                 (if Z.testbit v 23 then 0x800000 else 0)).
Proof.
  change INVALID_ACCOUNT_FLAGS with (Z.lor (2 ^ 1) (Z.lor (2 ^ 4) (2 ^ 23))).
  rewrite !Z.land_lor_distr_r, !land_pow2 by lia. reflexivity.
Qed.

Lemma wrap32_mod (z : Z) : (JS.wrap32 z mod 2 ^ 32 = z mod 2 ^ 32)%Z.
Proof.
  unfold JS.wrap32. rewrite Zminus_mod_idemp_l. f_equal. lia.
Qed.

Lemma land_low32 (x y : Z) :
  (x mod 2 ^ 32 = y mod 2 ^ 32)%Z ->
  Z.land x INVALID_ACCOUNT_FLAGS = Z.land y INVALID_ACCOUNT_FLAGS.
Proof.
  intros H. rewrite !land_flags.
  assert (B : forall n, (0 <= n < 32)%Z -> Z.testbit x n = Z.testbit y n).
  { intros n Hn.
    rewrite <- (Z.mod_pow2_bits_low x 32 n), <- (Z.mod_pow2_bits_low y 32 n) by lia.
    now rewrite H. }
  rewrite (B 1%Z), (B 4%Z), (B 23%Z) by lia. reflexivity.
Qed.

(** On an integer the [&] of [refresh] is the bitwise and with the mask:
    the conversion to 32 bits keeps the three flag bits. *)
Lemma bitand_flags (v : Z) :
  JS.bitand (JS.int v) (JS.int INVALID_ACCOUNT_FLAGS) =
    JS.int (Z.land v INVALID_ACCOUNT_FLAGS).
Proof.
  unfold JS.bitand, JS.int. f_equal.
  change (JS.ToInt32 (JS.Finite INVALID_ACCOUNT_FLAGS 0)) with INVALID_ACCOUNT_FLAGS.
  assert (T : JS.ToInt32 (JS.Finite v 0) = JS.wrap32 v).
  { unfold JS.ToInt32, JS.truncate. simpl. f_equal. lia. }
  rewrite T, (land_low32 (JS.wrap32 v) v (wrap32_mod v)), land_flags.
  destruct (Z.testbit v 1), (Z.testbit v 4), (Z.testbit v 23); reflexivity.
Qed.

Lemma flags_any (v : Z) :
  Z.land v INVALID_ACCOUNT_FLAGS <> 0%Z <->
  flag_set v ACCOUNTDISABLE \/ flag_set v LOCKOUT \/ flag_set v PASSWORD_EXPIRED.
Proof.
  unfold flag_set.
  change ACCOUNTDISABLE with (2 ^ 1)%Z.
  change LOCKOUT with (2 ^ 4)%Z.
  change PASSWORD_EXPIRED with (2 ^ 23)%Z.
  rewrite land_flags, !land_pow2 by lia.
  destruct (Z.testbit v 1), (Z.testbit v 4), (Z.testbit v 23); simpl;
    split; intros H; try (exfalso; apply H; reflexivity);
    try (intros K; discriminate);
    try (destruct H as [H | [H | H]]; exfalso; apply H; reflexivity);
    try (left; intros K; discriminate);
    try (right; left; intros K; discriminate);
    try (right; right; intros K; discriminate).
Qed.

(** *** Letters up to case *)

Lemma bytes_complete (c : ascii) : In c ASCII.bytes.
Proof.
  unfold ASCII.bytes. rewrite <- (ascii_nat_embedding c).
  apply in_map. apply in_seq. pose proof (nat_ascii_bounded c). lia.
Qed.

Lemma same_letterb_spec (a b : ascii) :
  ASCII.same_letterb a b = true <-> ASCII.same_letter a b.
Proof.
  unfold ASCII.same_letterb, ASCII.same_letter.
  rewrite orb_true_iff, Ascii.eqb_eq, existsb_exists. split.
  - intros [H | ([x y] & Hin & H)]; [now left |].
    cbn [fst snd] in H. apply orb_true_iff in H.
    destruct H as [H | H]; apply andb_true_iff in H; destruct H as [H1 H2];
      apply Ascii.eqb_eq in H1, H2; subst; auto.
  - intros [H | [H | H]]; [now left | |].
    + right. exists (a, b). split; [exact H |].
      cbn [fst snd]. now rewrite !Ascii.eqb_refl.
    + right. exists (b, a). split; [exact H |].
      cbn [fst snd]. rewrite !Ascii.eqb_refl. apply orb_true_r.
Qed.

(** Lowering identifies exactly the characters that are the same letter,
    checked on all pairs of bytes. *)
Lemma lower_char_table :
  forallb (fun a =>
             forallb (fun b =>
                        Bool.eqb (Ascii.eqb (ASCII.lower_char a) (ASCII.lower_char b))
                                 (ASCII.same_letterb a b))
                     ASCII.bytes)
          ASCII.bytes = true.
Proof. vm_compute. reflexivity. Qed.

Lemma lower_char_same_letter (a b : ascii) :
  ASCII.lower_char a = ASCII.lower_char b <-> ASCII.same_letter a b.
Proof.
  rewrite <- same_letterb_spec, <- Ascii.eqb_eq.
  pose proof lower_char_table as T. rewrite forallb_forall in T.
  specialize (T a (bytes_complete a)). rewrite forallb_forall in T.
  specialize (T b (bytes_complete b)). apply Bool.eqb_prop in T.
  rewrite T. reflexivity.
Qed.

(** Two strings have the same lowering exactly when they are equal up to
    the case of their letters. *)
Lemma lower_caseless (s t : string) :
  ASCII.lower s = ASCII.lower t <-> ASCII.caseless s t.
Proof.
  revert t. induction s as [| a s IH]; intros [| b t];
    cbn [ASCII.lower ASCII.caseless]; split; try discriminate; try contradiction;
    auto.
  - intros H. injection H as H1 H2.
    split; [now apply lower_char_same_letter | now apply IH].
  - intros [H1 H2]. f_equal; [now apply lower_char_same_letter | now apply IH].
Qed.

Lemma caseless_sym (s t : string) : ASCII.caseless s t -> ASCII.caseless t s.
Proof. intros H. apply lower_caseless. symmetry. now apply lower_caseless. Qed.

Section DriverProperties.

Variable parseNumber : string -> JS.number.
Variable toLowerCase : string -> string.
Variable LOWER : string -> string.
Variable config : Config.
Variable search : option string -> SearchOptions -> SearchResponse.
Variable rebind : string -> string -> option Error.
Variable usersService : ServiceCall -> DB.Database -> Promise unit * DB.Database.

Lemma accountInvalid_int (info : UserInfo) (v : Z) :
  userAccountControl info = JS.int v ->
  accountInvalid (Some info) = negb (Z.land v INVALID_ACCOUNT_FLAGS =? 0)%Z.
Proof.
  intros Hv. unfold accountInvalid. rewrite Hv, bitand_flags. simpl.
  destruct (Z.eqb_spec v 0) as [-> | Hne]; reflexivity.
Qed.

(** C1. On refresh the driver refetches the account-control bitmask and
    rejects with InvalidCredentials exactly when one of the disable
    (0x2), lockout (0x10) or password-expired (0x800000) flags is set in
    it; the mask is the bitwise or of the three flags, 0x800012, and
    nothing but the bitmask decides once it has been fetched. *)
Theorem refresh_rejects_flagged_account (user : User) (info : UserInfo) (v : Z)
    (Hbind : validateBindClient config search rebind = Resolved tt)
    (Hinfo : fetchUserInfo parseNumber config search (external_identifier user)
             = Resolved (Some info))
    (Hv : userAccountControl info = JS.int v) :
  INVALID_ACCOUNT_FLAGS = Z.lor ACCOUNTDISABLE (Z.lor LOCKOUT PASSWORD_EXPIRED) /\
  INVALID_ACCOUNT_FLAGS = 0x800012%Z /\
  (refresh parseNumber config search rebind user
     = Rejected InvalidCredentialsException
   <-> flag_set v ACCOUNTDISABLE \/ flag_set v LOCKOUT \/ flag_set v PASSWORD_EXPIRED) /\
  (refresh parseNumber config search rebind user
     = Rejected InvalidCredentialsException
   <-> Z.land v INVALID_ACCOUNT_FLAGS <> 0%Z) /\
  (refresh parseNumber config search rebind user = Resolved tt
   <-> Z.land v INVALID_ACCOUNT_FLAGS = 0%Z).
Proof.
  assert (R : refresh parseNumber config search rebind user =
              if negb (Z.land v INVALID_ACCOUNT_FLAGS =? 0)%Z
              then Rejected InvalidCredentialsException else Resolved tt).
  { unfold refresh. rewrite Hbind. cbn [await]. rewrite Hinfo. cbn [await].
    rewrite (accountInvalid_int info v Hv). reflexivity. }
  split; [reflexivity | split; [reflexivity |]].
  rewrite <- flags_any, R.
  destruct (Z.eqb_spec (Z.land v INVALID_ACCOUNT_FLAGS) 0) as [E | E]; simpl;
    repeat split; intros H; try reflexivity; try discriminate; try assumption;
    try contradiction.
Qed.

(** C9. Once the bind client has passed its health check, [refresh]
    resolves when the search for the user's entry ends without an entry
    ([fetchUserInfo] yields undefined), when the fetched account-control
    value is 0, and when the entry has no account-control attribute. *)
Theorem refresh_resolves_without_record_or_flags (user : User)
    (Hbind : validateBindClient config search rebind = Resolved tt)
    (Hinfo : fetchUserInfo parseNumber config search (external_identifier user)
               = Resolved None \/
             (exists info,
                fetchUserInfo parseNumber config search (external_identifier user)
                  = Resolved (Some info) /\
                userAccountControl info = JS.int 0) \/
             (exists object,
                fetchUserInfo parseNumber config search (external_identifier user)
                  = Resolved (Some (userInfoOf parseNumber config object)) /\
                prop object "userAccountControl" = None)) :
  refresh parseNumber config search rebind user = Resolved tt.
Proof.
  unfold refresh. rewrite Hbind. cbn [await].
  destruct Hinfo as [H | [(info & H & Z0) | (object & H & Hnone)]];
    rewrite H; cbn [await]; unfold accountInvalid.
  - reflexivity.
  - rewrite Z0. reflexivity.
  - unfold userInfoOf. cbn [userAccountControl]. rewrite Hnone. reflexivity.
Qed.

(** *** Listeners and promises *)

Lemma listen_step_settled {S A : Type}
    (handler : S -> SearchEvent -> S * Promise A)
    (events : list SearchEvent) (s : S) (p : Promise A) :
  p <> Pending ->
  snd (fold_left (listen_step handler) events (s, p)) = p.
Proof.
  revert s. induction events as [| ev events IH]; intros s Hp.
  - reflexivity.
  - cbn [fold_left]. unfold listen_step at 2. cbn [fst snd].
    destruct (handler s ev) as [s' q].
    assert (E : settle p q = p) by (destruct p; simpl; congruence).
    rewrite E. apply IH. exact Hp.
Qed.

Lemma listen_first {S A : Type}
    (handler : S -> SearchEvent -> S * Promise A) (init s' : S)
    (ev : SearchEvent) (events : list SearchEvent) (q : Promise A) :
  handler init ev = (s', q) -> q <> Pending ->
  snd (listen handler init (ev :: events)) = q.
Proof.
  intros Hh Hq. unfold listen. cbn [fold_left]. unfold listen_step at 2.
  cbn [fst snd]. rewrite Hh. cbn [settle].
  apply listen_step_settled. exact Hq.
Qed.

Lemma addGroups_fold (objs : list SearchEntryObject) (acc : list string) :
  fold_left addGroups objs acc = acc ++ flat_map cn_values objs.
Proof.
  revert acc. induction objs as [| o objs IH]; intros acc; simpl.
  - now rewrite app_nil_r.
  - rewrite IH. unfold addGroups, cn_values.
    destruct (prop o "cn") as [[s | l] |].
    + destruct (JS.truthy_string s); [now rewrite <- app_assoc | reflexivity].
    + now rewrite <- app_assoc.
    + reflexivity.
Qed.

Lemma listen_groups (objs : list SearchEntryObject) (tail : list SearchEvent)
    (acc : list string) :
  fold_left
    (listen_step
       (fun (userGroups : list string) ev =>
          match ev with
          | searchEntry object => (addGroups userGroups object, Pending)
          | searchError err => (userGroups, Rejected (handleError err))
          | searchEnd _ => (userGroups, Resolved userGroups)
          end))
    (map searchEntry objs ++ tail) (acc, Pending)
  = fold_left
      (listen_step
         (fun (userGroups : list string) ev =>
            match ev with
            | searchEntry object => (addGroups userGroups object, Pending)
            | searchError err => (userGroups, Rejected (handleError err))
            | searchEnd _ => (userGroups, Resolved userGroups)
            end))
      tail (fold_left addGroups objs acc, Pending).
Proof.
  revert acc. induction objs as [| o objs IH]; intros acc.
  - reflexivity.
  - cbn [map app fold_left]. unfold listen_step at 2. cbn [fst snd settle].
    apply IH.
Qed.

(** C7. A display attribute (first name, last name, email, and the
    account-control value before its conversion to a number) is taken
    as it is when it arrives as a scalar and as its first element when
    it arrives as a list, from the first entry of the search; the group
    names are accumulated over all entries of the group search, a
    list-valued name contributing every element. *)
Theorem attributes_normalized_groups_accumulated
    (userDn : option string) (object : SearchEntryObject)
    (rest : list SearchEvent)
    (member base : string) (groups : list SearchEntryObject)
    (result : option LDAPResult) (more : list SearchEvent)
    (Hinfo : search userDn
               (mkSearchOptions None None
                  ["givenName"; "sn"; JS.nullish (mailAttribute config) "mail";
                   "userAccountControl"])
             = SearchStarted (searchEntry object :: rest))
    (Hbase : groupDn config = Some base)
    (Htruthy : JS.truthy_string base = true)
    (Hgroups : search (Some base)
                 (mkSearchOptions
                    (Some (JS.nullish (groupAttribute config) "member", member))
                    (Some (JS.nullish (groupScope config) "one"))
                    ["cn"])
               = SearchStarted (map searchEntry groups ++ searchEnd result :: more)) :
  (exists info,
     fetchUserInfo parseNumber config search userDn = Resolved (Some info) /\
     normalized (prop object "givenName") (firstName info) /\
     normalized (prop object "sn") (lastName info) /\
     normalized (prop object (JS.nullish (mailAttribute config) "mail"))
                (email info) /\
     exists raw,
       normalized (prop object "userAccountControl") raw /\
       userAccountControl info = Number parseNumber raw) /\
  fetchUserGroups config search member = Resolved (flat_map cn_values groups) /\
  (forall o l g,
     In o groups -> prop o "cn" = Some (many l) -> In g l ->
     In g (flat_map cn_values groups)).
Proof.
  assert (N : forall x, normalized x (first_or_self x)).
  { intros [[s | l] |]; reflexivity. }
  split; [| split].
  - exists (userInfoOf parseNumber config object). split.
    + unfold fetchUserInfo. rewrite Hinfo.
      apply (listen_first _ tt tt); [reflexivity | discriminate].
    + unfold userInfoOf. cbn [firstName lastName email userAccountControl].
      repeat split; try apply N.
      exists (first_or_self (prop object "userAccountControl")).
      split; [apply N | reflexivity].
  - unfold fetchUserGroups. rewrite Hbase, Htruthy, Hgroups.
    unfold listen. rewrite listen_groups.
    cbn [fold_left]. unfold listen_step at 2. cbn [fst snd settle].
    rewrite listen_step_settled by discriminate.
    rewrite addGroups_fold. reflexivity.
  - intros o l g Ho Hcn Hg. apply in_flat_map. exists o. split; [exact Ho |].
    unfold cn_values. rewrite Hcn. exact Hg.
Qed.

(** *** Role resolution and the linked user *)

Lemma first_filter_Some {A : Type} (f : A -> bool) (l : list A) (r : A) :
  DB.first (List.filter f l) = Some r <->
  exists before after,
    l = before ++ r :: after /\ f r = true /\
    forall x, In x before -> f x = false.
Proof.
  unfold DB.first. induction l as [| a l IH]; simpl.
  - split; [discriminate |].
    intros (before & after & H & _). destruct before; discriminate.
  - destruct (f a) eqn:Fa; simpl.
    + split.
      * intros H. injection H as <-. exists [], l. repeat split; auto.
        intros x [].
      * intros (before & after & H & Fr & Hb).
        destruct before as [| b before]; simpl in H; injection H as -> Hl.
        -- reflexivity.
        -- rewrite (Hb b) in Fa by now left. discriminate.
    + rewrite IH. split.
      * intros (before & after & -> & Fr & Hb).
        exists (a :: before), after. repeat split; auto.
        intros x [<- | Hx]; auto.
      * intros (before & after & H & Fr & Hb).
        destruct before as [| b before]; simpl in H; injection H as -> Hl.
        -- congruence.
        -- exists before, after. repeat split; auto.
           intros x Hx. apply Hb. now right.
Qed.







(** C5. When the distinguished name is already linked to an internal
    user, [getUserID] makes exactly one call on the users service, an
    update of that user whose only key is the role (the id of the
    resolved role, or null); it creates no user, and it returns the
    existing id once the update has succeeded. *)
Theorem getUserID_linked_updates_role_only
    (identifier : option string) (w : World) (userDn uid : string)
    (userGroups : list string)
    (Hid : JS.truthy_opt identifier = true)
    (Hbind : validateBindClient config search rebind = Resolved tt)
    (Hdn : fetchUserDn toLowerCase config search (JS.nullish identifier "")
           = Resolved (Some userDn))
    (HdnT : JS.truthy_string userDn = true)
    (Huid : fetchUserId toLowerCase LOWER userDn (db w) = Some uid)
    (HuidT : JS.truthy_string uid = true)
    (Hgroups : fetchUserGroups config search userDn = Resolved userGroups) :
  let role :=
    match fetchRole toLowerCase LOWER userGroups (db w) with
    | Some r => JS.VString (DB.role_id r)
    | None => JS.VNull
    end in
  let update := updateOne uid [("role", role)] in
  let run := getUserID parseNumber toLowerCase LOWER config search rebind
                       usersService identifier w in
  service_calls (snd run) = service_calls w ++ [update] /\
  (forall data, In (createOne data) (service_calls (snd run)) ->
                In (createOne data) (service_calls w)) /\
  (forall key data, In (updateOne key data) (service_calls (snd run)) ->
                    In (updateOne key data) (service_calls w) \/
                    (key = uid /\ JS.keys data = ["role"])) /\
  db (snd run) = snd (usersService update (db w)) /\
  fst run = (let* _ := fst (usersService update (db w)) in Resolved (Some uid)).
Proof.
  intros role update run.
  assert (Hrole : (match userGroups with
                   | [] => None
                   | _ :: _ => fetchRole toLowerCase LOWER userGroups (db w)
                   end) = fetchRole toLowerCase LOWER userGroups (db w)).
  { destruct userGroups; [| reflexivity].
    unfold fetchRole. simpl.
    induction (DB.directus_roles (db w)); [reflexivity | exact IHl]. }
  assert (E : run =
              (let* _ := fst (usersService update (db w)) in Resolved (Some uid),
               mkWorld (snd (usersService update (db w)))
                       (service_calls w ++ [update]))).
  { subst run. unfold getUserID. rewrite Hid. cbn [negb].
    unfold awaitA at 1. unfold lift at 1. rewrite Hbind.
    unfold awaitA at 1. unfold lift at 1. rewrite Hdn.
    cbn [JS.truthy_opt JS.nullish]. rewrite HdnT. cbn [negb].
    unfold awaitA at 1. unfold query at 1. rewrite Huid.
    unfold awaitA at 1. unfold lift at 1. rewrite Hgroups.
    unfold awaitA at 1.
    assert (Q : (match userGroups with
                 | [] => ret None
                 | _ :: _ => query (fetchRole toLowerCase LOWER userGroups)
                 end) w = (Resolved (fetchRole toLowerCase LOWER userGroups (db w)), w)).
    { rewrite <- Hrole. destruct userGroups; reflexivity. }
    rewrite Q. cbn [JS.truthy_opt JS.nullish]. rewrite HuidT.
    unfold awaitA, call, ret. fold role. fold update.
    destruct (usersService update (db w)) as [[u | x |] db']; reflexivity. }
  rewrite E. cbn [fst snd service_calls db].
  split; [reflexivity | split; [| split; [| split; reflexivity]]].
  - intros data H. apply in_app_or in H. destruct H as [H | [H | []]].
    + exact H.
    + discriminate.
  - intros key data H. apply in_app_or in H. destruct H as [H | [H | []]].
    + now left.
    + right. injection H as <- <-. split; reflexivity.
Qed.

End DriverProperties.

(* ===================================================================== *)
(** ** Properties of the login router                                    *)
(* ===================================================================== *)

Module RouterFacts.

Import Router.

Lemma check_mode (m : option Field) :
  check false ["cookie"; "json"] m = None ->
  m = None \/ m = Some (Str "json") \/ m = Some (Str "cookie").
Proof.
  destruct m as [[s |] |]; intros H; auto; [| discriminate].
  unfold check in H. cbn [existsb] in H.
  destruct (String.eqb_spec s "cookie") as [E | _]; [subst s; auto |].
  destruct (String.eqb_spec s "json") as [E | _]; [subst s; auto |].
  discriminate.
Qed.

Lemma loginSchema_mode (body : Body) :
  loginSchema body = None ->
  mode body = None \/ mode body = Some (Str "json") \/
  mode body = Some (Str "cookie").
Proof.
  intros H. apply check_mode. unfold loginSchema, first_issue in H.
  destruct (check false ["cookie"; "json"] (mode body)) as [i |]; [| reflexivity].
  exfalso. cbn [List.filter snd] in H.
  destruct (check true [] (identifier body)); [discriminate |].
  destruct (check true [] (password body)); discriminate.
Qed.

Section Handler.

Variable env : Env.
Variable ms : string -> option Z.
Variable joiMessage : string * Issue -> string.
Variable authenticationService_login :
  string -> Body -> option Field -> Promise Tokens.

(** C4. A successful login answers by mode: in json mode, which is
    also the mode of a request without the flag, the body holds the
    access token and the refresh token and no cookie is set; in cookie
    mode the body holds the access token without the refresh token, and
    the refresh token is set as one cookie that is HttpOnly, has the
    configured domain and Secure flag, a max-age of the refresh-token
    time-to-live, and SameSite as configured, strict by default. *)
Theorem login_response_by_mode (provider : string) (body : Body) (tokens : Tokens)
    (Hvalid : loginSchema body = None)
    (Hlogin : authenticationService_login provider body (otp body)
              = Resolved tokens) :
  exists res,
    createLDAPAuthRouter env ms joiMessage authenticationService_login
                         provider body = Resolved res /\
    access_token (payload res) = accessToken tokens /\
    data_expires (payload res) = expires tokens /\
    (mode body = None \/ mode body = Some (Str "json") \/
     mode body = Some (Str "cookie")) /\
    (mode body = None \/ mode body = Some (Str "json") ->
     refresh_token (payload res) = Some (refreshToken tokens) /\
     cookies res = []) /\
    (mode body = Some (Str "cookie") ->
     refresh_token (payload res) = None /\
     exists c,
       cookies res = [c] /\
       cookie_name c = REFRESH_TOKEN_COOKIE_NAME env /\
       cookie_value c = refreshToken tokens /\
       httpOnly (cookie_options c) = true /\
       domain (cookie_options c) = REFRESH_TOKEN_COOKIE_DOMAIN env /\
       maxAge (cookie_options c) = ms (REFRESH_TOKEN_TTL env) /\
       secure (cookie_options c)
         = JS.nullish (REFRESH_TOKEN_COOKIE_SECURE env) false /\
       sameSite (cookie_options c)
         = JS.or_string (REFRESH_TOKEN_COOKIE_SAME_SITE env) "strict" /\
       (REFRESH_TOKEN_COOKIE_SAME_SITE env = None ->
        sameSite (cookie_options c) = "strict")).
Proof.
  unfold createLDAPAuthRouter. rewrite Hvalid, Hlogin. cbn [await].
  eexists. split; [reflexivity |].
  destruct (loginSchema_mode body Hvalid) as [M | [M | M]]; rewrite M;
    cbn -[JS.nullish JS.or_string];
    (split; [reflexivity | split; [reflexivity | split; [auto |]]]);
    split; intros H; try discriminate;
    try (destruct H as [H | H]; discriminate);
    try (split; reflexivity).
  split; [reflexivity |]. eexists. split; [reflexivity |].
  cbn [cookie_name cookie_value cookie_options httpOnly domain maxAge secure
       sameSite].
  repeat split. intros E. rewrite E. reflexivity.
Qed.

End Handler.

End RouterFacts.

(* ===================================================================== *)
(** ** Properties of the client session                                  *)
(* ===================================================================== *)

Module SDKFacts.

Import SDK.

Section Session.

Variable server : Request -> option AuthResult.
Variable options : Options.

Lemma tick_add (a b : nat) (c : Client) :
  tick server options (a + b) c = tick server options b (tick server options a c).
Proof.
  revert c. induction a as [| a IH]; intros c; simpl; [reflexivity | apply IH].
Qed.

(** Until its timer is due a client only watches the clock. *)
Lemma tick_before_due (k : nat) (c : Client) (due : nat) :
  timer c = Some due -> now c + k < due ->
  tick server options k c = mkClient (now c + k) (state c) (Some due) (sent c).
Proof.
  revert c. induction k as [| k IH]; intros c Ht Hlt.
  - simpl. rewrite Nat.add_0_r, <- Ht. destruct c; reflexivity.
  - cbn [tick]. unfold tick1. rewrite Ht.
    destruct (Nat.leb_spec due (S (now c))) as [Hle | _]; [lia |].
    rewrite IH; cbn [now timer state sent]; [| reflexivity | lia].
    f_equal. lia.
Qed.

(** The tick on which the timer is due fires the refresh. *)
Lemma tick_due (k : nat) (c : Client) :
  timer c = Some (now c + S k) ->
  tick server options (S k) c =
    refresh server options (mkClient (now c + S k) (state c) None (sent c)).
Proof.
  intros Ht. replace (S k) with (k + 1) at 1 by lia. rewrite tick_add.
  rewrite (tick_before_due k c (now c + S k)) by (auto; lia).
  cbn [tick]. unfold tick1. cbn [now timer state sent].
  destruct (Nat.leb_spec (now c + S k) (S (now c + k))) as [_ | Hgt]; [| lia].
  replace (S (now c + k)) with (now c + S k) by lia. reflexivity.
Qed.

(** Requests are only ever appended, and each at a later time than the
    clock showed before. *)
Lemma tick_appends (k : nat) (c : Client) :
  exists later,
    sent (tick server options k c) = sent c ++ later /\
    forall r, In r later -> now c < fst r.
Proof.
  revert c. induction k as [| k IH]; intros c.
  - exists []. simpl. rewrite app_nil_r. split; [reflexivity | intros r []].
  - cbn [tick].
    destruct (IH (tick1 server options c)) as (later & Hs & Hl).
    assert (H1 : exists one,
               sent (tick1 server options c) = sent c ++ one /\
               (forall r, In r one -> now c < fst r) /\
               now c < now (tick1 server options c)).
    { unfold tick1. destruct (timer c) as [due |].
      - destruct (due <=? S (now c))%nat.
        + unfold refresh. cbn [state now sent].
          destruct (state c) as [| tok rt e at_ |].
          * exists []. cbn. rewrite app_nil_r. repeat split; auto. intros r [].
          * destruct (server (RefreshRequest rt)) as [r2 |];
              exists [(S (now c), RefreshRequest rt)]; cbn;
              (repeat split; auto; intros r [<- | []]; cbn; lia).
          * exists []. cbn. rewrite app_nil_r. repeat split; auto. intros r [].
        + exists []. cbn. rewrite app_nil_r. repeat split; auto. intros r [].
      - destruct (state c) as [| tok rt e at_ |];
          try destruct (at_ <=? S (now c))%nat;
          exists []; cbn; rewrite app_nil_r; repeat split; auto; intros r []. }
    destruct H1 as (one & Hone & Hlt & Hnow).
    exists (one ++ later). rewrite Hs, Hone, app_assoc. split; [reflexivity |].
    intros r Hr. apply in_app_or in Hr. destruct Hr as [Hr | Hr]; auto.
    specialize (Hl r Hr). lia.
Qed.

(** C8. With auto-refresh on, a session logged in at time t with a
    token that expires after E and a lead time L with 0 < L < E sends no
    request before t + E - L, sends at t + E - L one refresh request
    carrying the refresh token it holds, and has by then, before
    t + E, replaced its stored token and expiry by the answer; every
    later request is sent strictly later. *)
Theorem refresh_sent_at_expiry_minus_lead
    (c0 : Client) (email password : string) (r1 r2 : AuthResult)
    (Hauto : autoRefresh options = true)
    (Hlogin : server (LoginRequest email password "json") = Some r1)
    (Hlead : 0 < msRefreshBeforeExpires options < expires r1)
    (Hrefresh : server (RefreshRequest (refresh_token r1)) = Some r2) :
  refreshed_on_schedule server options c0 email password r1 r2.
Proof.
  unfold refreshed_on_schedule.
  set (c1 := login server options email password c0).
  set (wait := expires r1 - msRefreshBeforeExpires options).
  set (due := now c0 + wait).
  assert (C1 : c1 = mkClient (now c0)
                      (Active (access_token r1) (refresh_token r1) (expires r1)
                              (now c0 + expires r1))
                      (Some due)
                      (sent c0 ++ [(now c0, LoginRequest email password "json")])).
  { subst c1. unfold login. rewrite Hlogin. unfold store, send.
    cbn [now sent]. rewrite Hauto. reflexivity. }
  assert (Hw : exists w, wait = S w) by (exists (wait - 1); subst wait; lia).
  destruct Hw as (w & Hw).
  assert (Fire : tick server options wait c1 =
                 mkClient due
                   (Active (access_token r2) (refresh_token r2) (expires r2)
                           (due + expires r2))
                   (Some (due + (expires r2 - msRefreshBeforeExpires options)))
                   (sent c1 ++ [(due, RefreshRequest (refresh_token r1))])).
  { rewrite Hw, tick_due; rewrite C1; cbn [now state timer sent].
    - unfold refresh. cbn [state]. rewrite Hrefresh. unfold store, send.
      cbn [now sent]. rewrite Hauto, <- Hw. reflexivity.
    - rewrite <- Hw. reflexivity. }
  split; [| split].
  - intros k Hk.
    rewrite (tick_before_due k c1 due).
    + rewrite C1. repeat split; reflexivity.
    + rewrite C1. reflexivity.
    + rewrite C1. cbn [now]. subst due. lia.
  - rewrite Fire. cbn [sent now state]. repeat split; auto.
    subst due wait. lia.
  - intros k Hk. replace k with (wait + (k - wait)) by lia.
    rewrite tick_add.
    destruct (tick_appends (k - wait) (tick server options wait c1))
      as (later & Hs & Hl).
    exists later. rewrite Hs, Fire. cbn [sent now] in *.
    rewrite <- app_assoc. split; [reflexivity |].
    intros r Hr. specialize (Hl r Hr). rewrite Fire in Hl. exact Hl.
Qed.

End Session.

End SDKFacts.

(* ===================================================================== *)
(** ** The properties on the sample deployment                           *)
(* ===================================================================== *)

Lemma refresh_rejects_flagged_account_witness :
  refresh Sample.parseNumber Sample.config Sample.search Sample.rebind
          Sample.locked
  = Rejected InvalidCredentialsException.
Proof.
  destruct (refresh_rejects_flagged_account
              Sample.parseNumber Sample.config Sample.search Sample.rebind
              Sample.locked
              (userInfoOf Sample.parseNumber Sample.config Sample.lockedEntry)
              528 eq_refl eq_refl eq_refl) as (_ & _ & H & _).
  apply H. right. left. unfold flag_set. vm_compute. discriminate.
Defined.

Lemma refresh_resolves_without_record_or_flags_witness :
  refresh Sample.parseNumber Sample.config Sample.search Sample.rebind
          Sample.ghost
  = Resolved tt.
Proof.
  apply (refresh_resolves_without_record_or_flags
           Sample.parseNumber Sample.config Sample.search Sample.rebind
           Sample.ghost eq_refl).
  left. reflexivity.
Defined.

Lemma verify_translates_directory_errors_witness :
  outcome (verify Sample.config Sample.jdoe (Some "wrong")
                  [bindCallback (Some Sample.badPassword)])
  = Rejected InvalidCredentialsException /\
  outcome (verify Sample.config Sample.jdoe (Some "pw")
                  [bindCallback (Some Sample.econnrefused)])
  = Rejected (ServiceUnavailableException
                "Service returned unexpected error" "ldap"
                "connect ECONNREFUSED 127.0.0.1:389") /\
  handleError Sample.econnrefused <> RawError Sample.econnrefused.
Proof.
  destruct verify_translates_directory_errors as (_ & H & F).
  destruct (F Sample.config Sample.jdoe Sample.jdoeDn "wrong" Sample.badPassword []
              eq_refl eq_refl eq_refl) as (Hbad & _ & _).
  destruct (F Sample.config Sample.jdoe Sample.jdoeDn "pw" Sample.econnrefused []
              eq_refl eq_refl eq_refl) as (_ & Hother & _).
  destruct (H Sample.config Sample.jdoe (Some "pw")
              [clientError Sample.econnrefused] _ eq_refl) as (_ & Hraw & _).
  split; [| split].
  - apply Hbad. left. reflexivity.
  - apply Hother. intros [K | [K | K]]; discriminate.
  - apply Hraw.
Defined.


Lemma verify_rejects_before_connecting_witness :
  calls (verify Sample.config Sample.jdoe (Some "") [bindCallback None]) = [].
Proof.
  destruct (verify_rejects_before_connecting
              Sample.config Sample.jdoe (Some "") [bindCallback None])
    as (_ & H & _).
  - right. reflexivity.
  - exact H.
Defined.

Lemma attributes_normalized_groups_accumulated_witness :
  fetchUserGroups Sample.config Sample.search Sample.jdoeDn
  = Resolved ["Staff"; "Editors"; "ADMINS"].
Proof.
  destruct (attributes_normalized_groups_accumulated
              Sample.parseNumber Sample.config Sample.search
              (Some Sample.jdoeDn) Sample.jdoeEntry [Sample.done]
              Sample.jdoeDn "ou=groups,dc=example,dc=org"
              [Sample.staffGroup; Sample.adminsGroup]
              (Some (mkResult 0)) []
              eq_refl eq_refl eq_refl eq_refl) as (_ & H & _).
  exact H.
Defined.


Lemma getUserID_linked_updates_role_only_witness :
  service_calls
    (snd (getUserID Sample.parseNumber ASCII.lower ASCII.lower Sample.config
                    Sample.search Sample.rebind
                    Sample.usersService (Some "jdoe") Sample.world))
  = [updateOne "u-2" [("role", JS.VString "r-admin")]].
Proof.
  destruct (getUserID_linked_updates_role_only
              Sample.parseNumber ASCII.lower ASCII.lower
              Sample.config Sample.search Sample.rebind
              Sample.usersService (Some "jdoe") Sample.world
              "cn=jdoe,ou=users,dc=example,dc=org" "u-2"
              ["Staff"; "Editors"; "ADMINS"]
              eq_refl eq_refl eq_refl eq_refl eq_refl eq_refl eq_refl)
    as (H & _).
  exact H.
Defined.

Lemma login_response_by_mode_witness :
  exists res,
    Router.createLDAPAuthRouter Sample.env Sample.ms Sample.joiMessage
      Sample.authenticationService_login "ldap" Sample.cookieLogin
    = Resolved res /\
    Router.refresh_token (Router.payload res) = None /\
    length (Router.cookies res) = 1.
Proof.
  destruct (RouterFacts.login_response_by_mode
              Sample.env Sample.ms Sample.joiMessage
              Sample.authenticationService_login "ldap" Sample.cookieLogin
              Sample.tokens eq_refl eq_refl)
    as (res & Hres & _ & _ & _ & _ & Hcookie).
  exists res. split; [exact Hres |].
  destruct (Hcookie eq_refl) as (Hnone & c & Hc & _).
  split; [exact Hnone | rewrite Hc; reflexivity].
Defined.

Lemma refresh_sent_at_expiry_minus_lead_witness :
  SDK.sent (SDK.tick Sample.server Sample.options 2500
              (SDK.login Sample.server Sample.options "jdoe" "pw" (SDK.create 0)))
  = [(0, SDK.LoginRequest "jdoe" "pw" "json"); (2500, SDK.RefreshRequest "RT1")] /\
  SDK.auth_token (SDK.tick Sample.server Sample.options 2500
                    (SDK.login Sample.server Sample.options "jdoe" "pw"
                               (SDK.create 0)))
  = Some "AT2".
Proof.
  assert (Hlead : 0 < 2500 < 5000).
  { split; apply Nat.ltb_lt; reflexivity. }
  destruct (SDKFacts.refresh_sent_at_expiry_minus_lead
              Sample.server Sample.options (SDK.create 0) "jdoe" "pw"
              (SDK.mkAuthResult "AT1" "RT1" 5000)
              (SDK.mkAuthResult "AT2" "RT2" 5000)
              eq_refl eq_refl Hlead eq_refl)
    as (_ & (Hsent & _ & _ & Hstate) & _).
  split.
  - exact Hsent.
  - exact (f_equal (fun st => match st with
                              | SDK.Active t _ _ _ => Some t
                              | _ => None
                              end) Hstate).
Defined.

(** C8, as the specification states it for every lead time, fails at both
    ends: without lead time the refresh is sent when the old token
    expires, not before; with a lead time as long as the token's life, or
    longer, the time E - L is not after the login, and the refresh is not
    sent then but once the clock has moved on. *)
Lemma refresh_lead_outside_token_life :
  Sample.server (SDK.LoginRequest "jdoe" "pw" "json")
  = Some (SDK.mkAuthResult "AT1" "RT1" 5000) /\
  Sample.server (SDK.RefreshRequest "RT1")
  = Some (SDK.mkAuthResult "AT2" "RT2" 5000) /\
  ~ SDK.refreshed_on_schedule Sample.server Sample.noLead (SDK.create 0) "jdoe" "pw"
      (SDK.mkAuthResult "AT1" "RT1" 5000) (SDK.mkAuthResult "AT2" "RT2" 5000) /\
  ~ SDK.refreshed_on_schedule Sample.server Sample.fullLead (SDK.create 0) "jdoe" "pw"
      (SDK.mkAuthResult "AT1" "RT1" 5000) (SDK.mkAuthResult "AT2" "RT2" 5000) /\
  ~ SDK.refreshed_on_schedule Sample.server Sample.longLead (SDK.create 0) "jdoe" "pw"
      (SDK.mkAuthResult "AT1" "RT1" 5000) (SDK.mkAuthResult "AT2" "RT2" 5000) /\
  SDK.sent (SDK.tick Sample.server Sample.longLead 1
              (SDK.login Sample.server Sample.longLead "jdoe" "pw" (SDK.create 0)))
  = [(0, SDK.LoginRequest "jdoe" "pw" "json"); (1, SDK.RefreshRequest "RT1")].
Proof.
  split; [reflexivity | split; [reflexivity | split; [| split; [| split]]]].
  - intros (_ & (_ & _ & Hlt & _) & _). exact (Nat.lt_irrefl _ Hlt).
  - intros (_ & (Hsent & _) & _). vm_compute in Hsent. discriminate Hsent.
  - intros (_ & (Hsent & _) & _). vm_compute in Hsent. discriminate Hsent.
  - vm_compute. reflexivity.
Qed.

(** The role that wins is the first in the order of the role query, not
    the one whose group comes first: here the editors group precedes the
    admins group, and the admins role precedes the editors role. *)
Example role_order_is_query_order :
  fetchRole ASCII.lower ASCII.lower ["Staff"; "Editors"; "ADMINS"] Sample.database
  = Some (DB.mkRoleRow "r-admin" "Admins") /\
  fetchRole ASCII.lower ASCII.lower ["Editors"] Sample.database
        = Some (DB.mkRoleRow "r-editor" "editors") /\
  fetchRole ASCII.lower ASCII.lower ["Staff"] Sample.database = None.
Proof. repeat split; reflexivity. Qed.

(** A first login creates the user from the first entry of the directory
    and returns the id the database then holds for it. *)
Example getUserID_creates_unlinked_user :
  getUserID Sample.parseNumber ASCII.lower ASCII.lower Sample.config Sample.search Sample.rebind
            Sample.usersService (Some "jdoe")
            (mkWorld Sample.emptyDatabase [])
  = (Resolved (Some "u-new"),
     mkWorld
       (DB.mkDatabase
          [DB.mkUserRow "u-new" (Some "cn=jdoe,ou=users,dc=example,dc=org")]
          (DB.directus_roles Sample.database))
       [createOne [("provider", JS.VString "ldap");
                   ("first_name", JS.VString "John");
                   ("last_name", JS.VString "Doe");
                   ("email", JS.VString "jdoe@example.org");
                   ("external_identifier",
                    JS.VString "cn=jdoe,ou=users,dc=example,dc=org");
                   ("role", JS.VString "r-admin")]]).
Proof. reflexivity. Qed.

(** An unknown identifier and a missing one are both InvalidCredentials. *)
Example getUserID_unknown_identifier :
  fst (getUserID Sample.parseNumber ASCII.lower ASCII.lower
        Sample.config Sample.search Sample.rebind
                 Sample.usersService (Some "nobody") Sample.world)
  = Rejected InvalidCredentialsException /\
  fst (getUserID Sample.parseNumber ASCII.lower ASCII.lower
        Sample.config Sample.search Sample.rebind
                 Sample.usersService None Sample.world)
  = Rejected InvalidCredentialsException.
Proof. split; reflexivity. Qed.

(** A wrong password and an unreachable directory differ in kind; a bind
    that succeeds resolves, and in both bind cases the client is
    destroyed. *)
Example verify_outcomes :
  verify Sample.config Sample.jdoe (Some "wrong")
         [bindCallback (Some Sample.badPassword)]
  = mkVerifyRun (Rejected InvalidCredentialsException)
      [createClient [("reconnect", JS.VBool false);
                     ("url", JS.VString "ldap://directory.example.org")];
       onError; bind Sample.jdoeDn "wrong"; destroy] /\
  outcome (verify Sample.config Sample.jdoe (Some "pw") [bindCallback None])
  = Resolved tt /\
  In destroy (calls (verify Sample.config Sample.jdoe (Some "pw")
                            [bindCallback None])).
Proof.
  split; [reflexivity | split; [reflexivity |]].
  simpl. auto.
Qed.

(** The json login of the sample carries both tokens in its body. *)
Example json_login_body :
  Router.createLDAPAuthRouter Sample.env Sample.ms Sample.joiMessage
    Sample.authenticationService_login "ldap" Sample.plainLogin
  = Resolved (Router.mkResponse [] (Router.mkData "AT1" 900000 (Some "RT1"))).
Proof. reflexivity. Qed.

(** The conversion to 32 bits keeps the flags of a bitmask that does not
    fit 32 bits, and a value that is not a number raises no flag. *)
Example account_flags_examples :
  accountInvalid (Some (mkUserInfo None None None (JS.int (2 ^ 32 + 2)))) = true /\
  accountInvalid (Some (mkUserInfo None None None (JS.int 512))) = false /\
  accountInvalid (Some (mkUserInfo None None None JS.NaN)) = false /\
  accountInvalid None = false.
Proof. repeat split; reflexivity. Qed.
(* ===================================================================== *)
(** ** Objects, client options and construction                          *)
(* ===================================================================== *)

Lemma get_filter_ne (o : JS.object) (k k' : string) :
  k <> k' ->
  JS.get (List.filter (fun kv => negb (String.eqb k' (fst kv))) o) k = JS.get o k.
Proof.
  intros Hne. induction o as [| [k1 v1] o IH]; [reflexivity |].
  cbn [List.filter fst].
  destruct (String.eqb_spec k' k1) as [<- | Hk1]; cbn [negb JS.get].
  - rewrite IH. destruct (String.eqb_spec k k') as [E | _]; [contradiction | reflexivity].
  - rewrite IH. reflexivity.
Qed.

Lemma get_set_eq (o : JS.object) (k : string) (v : JS.value) :
  JS.get (JS.set o k v) k = Some v.
Proof. unfold JS.set. cbn [JS.get]. now rewrite String.eqb_refl. Qed.

Lemma get_set_ne (o : JS.object) (k k' : string) (v : JS.value) :
  k <> k' -> JS.get (JS.set o k' v) k = JS.get o k.
Proof.
  intros Hne. unfold JS.set. cbn [JS.get].
  destruct (String.eqb_spec k k') as [E | _]; [contradiction |].
  now apply get_filter_ne.
Qed.

Lemma get_absent (o : JS.object) (k : string) :
  ~ In k (JS.keys o) -> JS.get o k = None.
Proof.
  induction o as [| [k1 v1] o IH]; intros Hk; [reflexivity |].
  cbn [JS.get]. destruct (String.eqb_spec k k1) as [-> | _].
  - exfalso. apply Hk. now left.
  - apply IH. intros H. apply Hk. now right.
Qed.

(** The spread [{...a, ...b}]: a key of [b] wins, any other key keeps
    what [a] has. *)
Lemma get_assign (a b : JS.object) (k : string) :
  NoDup (JS.keys b) ->
  JS.get (JS.assign a b) k =
    match JS.get b k with
    | Some v => Some v
    | None => JS.get a k
    end.
Proof.
  unfold JS.assign. revert a. induction b as [| [k1 v1] b IH]; intros a Hnd.
  - reflexivity.
  - cbn [fold_left fst snd]. cbn [JS.keys map fst] in Hnd.
    apply NoDup_cons_iff in Hnd. destruct Hnd as [Hk1 Hnd].
    rewrite (IH _ Hnd). cbn [JS.get].
    destruct (String.eqb_spec k k1) as [-> | Hne].
    + rewrite (get_absent b k1 Hk1). apply get_set_eq.
    + rewrite (get_set_ne a k k1 v1 Hne). reflexivity.
Qed.

Lemma verify_calls_count (run : VerifyRun) (events : list ClientEvent) :
  calls (fold_left verify_step events run)
  = calls run ++ repeat destroy (bindCallbacks events).
Proof.
  revert run. induction events as [| ev events IH]; intros run.
  - simpl. now rewrite app_nil_r.
  - cbn [fold_left]. rewrite IH. unfold bindCallbacks.
    destruct ev as [e | [e |]]; cbn [verify_step calls List.filter length repeat].
    + reflexivity.
    + now rewrite <- app_assoc.
    + now rewrite <- app_assoc.
Qed.

(** X1. Past its guard [verify] creates one client, listens for its errors,
    binds once, as the user's external identifier with the password
    given, and afterwards only destroys the client, once for each time
    the bind callback runs. *)
Theorem verify_binds_once_as_user (config : Config) (user : User)
    (name pw : string) (events : list ClientEvent)
    (Hn : external_identifier user = Some name)
    (Tn : JS.truthy_string name = true) (Tp : JS.truthy_string pw = true) :
  exists options,
    calls (verify config user (Some pw) events)
    = createClient options :: onError :: bind name pw
        :: repeat destroy (bindCallbacks events).
Proof.
  unfold verify. rewrite Hn, Tn, Tp. cbn [andb].
  eexists. rewrite verify_calls_count. reflexivity.
Qed.

(** X2. The client of a verification never reconnects, whatever the client
    options of the provider say; every other option of the provider is
    passed on, and the url is the provider's [clientUrl] unless the
    client options carry their own. *)
Theorem verify_client_never_reconnects (config : Config) (user : User)
    (name pw : string) (events : list ClientEvent)
    (Hn : external_identifier user = Some name)
    (Tn : JS.truthy_string name = true) (Tp : JS.truthy_string pw = true)
    (Hkeys : NoDup (JS.keys (clientConfig config))) :
  exists options rest,
    calls (verify config user (Some pw) events) = createClient options :: rest /\
    JS.get options "reconnect" = Some (JS.VBool false) /\
    JS.get options "url"
      = match JS.get (clientConfig config) "url" with
        | Some v => Some v
        | None => Some (JS.of_opt_string (clientUrl config))
        end /\
    forall k, k <> "reconnect" -> k <> "url" ->
              JS.get options k = JS.get (clientConfig config) k.
Proof.
  unfold verify. rewrite Hn, Tn, Tp. cbn [andb].
  rewrite verify_calls_count. cbn [calls app].
  eexists. eexists. split; [reflexivity |].
  split; [apply get_set_eq | split].
  - rewrite get_set_ne by discriminate. rewrite get_assign by exact Hkeys.
    destruct (JS.get (clientConfig config) "url"); reflexivity.
  - intros k Hr Hu. rewrite get_set_ne by exact Hr.
    rewrite get_assign by exact Hkeys.
    destruct (JS.get (clientConfig config) k); [reflexivity |].
    cbn [JS.get]. destruct (String.eqb_spec k "url"); [contradiction | reflexivity].
Qed.

(** X3. The first event of the client decides a verification: a bind that
    succeeds later does not undo an error, an error that arrives later
    does not undo a success, and without any event the promise stays
    pending. *)
Theorem verify_first_event_decides (config : Config) (user : User)
    (name pw : string)
    (Hn : external_identifier user = Some name)
    (Tn : JS.truthy_string name = true) (Tp : JS.truthy_string pw = true) :
  outcome (verify config user (Some pw) []) = Pending /\
  forall ev rest,
    outcome (verify config user (Some pw) (ev :: rest)) = settled_by ev.
Proof.
  unfold verify. rewrite Hn, Tn, Tp. cbn [andb]. split; [reflexivity |].
  intros ev rest. cbn [fold_left]. rewrite verify_settled_early.
  - destruct ev as [e | [e |]]; reflexivity.
  - destruct ev as [e | [e |]]; discriminate.
Qed.

Lemma guard_incomplete (given : ProviderConfig) :
  guard given = true <-> incomplete given.
Proof.
  unfold guard, incomplete.
  destruct (JS.truthy_opt (given_bindDn given)),
           (JS.truthy_opt (given_bindPassword given)),
           (JS.truthy_opt (given_userDn given)),
           (JS.truthy_opt (given_provider given)),
           (JS.truthy_opt (given_clientUrl given)),
           (has_socketPath (given_client given));
    cbn [negb orb andb]; split; intros H; auto 10; try discriminate;
    exfalso; destruct H as [H | [H | [H | [H | [H1 H2]]]]]; discriminate.
Qed.

(** X4. The constructor throws InvalidConfig, naming the provider it was
    given, exactly when the bind principal, the bind secret, the user
    search root or the provider name is missing or empty, or when there
    is neither a url nor a socket path. Past this guard it ends as
    [ldap.createClient] does on the url, [reconnect: true] and the client
    options: with the error that call throws, or with a driver that keeps
    the values given and whose shared bind client reconnects unless the
    client options say otherwise. *)
Theorem constructor_requires_bind_and_endpoint
    (createClient_throws : JS.object -> option Error) (given : ProviderConfig) :
  (constructor createClient_throws given
     = InvalidProviderConfig "Invalid provider config" (given_provider given)
   <-> incomplete given) /\
  (forall err,
     constructor createClient_throws given = ClientCreationThrows err <->
     ~ incomplete given /\
     createClient_throws (bindClientOptions given) = Some err) /\
  (forall config options,
     constructor createClient_throws given = Constructed config options ->
     ~ incomplete given /\
     options = bindClientOptions given /\
     createClient_throws options = None /\
     given_bindDn given = Some (bindDn config) /\
     given_bindPassword given = Some (bindPassword config) /\
     given_userDn given = Some (userDn config) /\
     given_provider given = Some (provider config) /\
     clientUrl config = given_clientUrl given /\
     client config = given_client given /\
     groupDn config = given_groupDn given /\
     (NoDup (JS.keys (clientConfig config)) ->
      JS.get options "reconnect"
        = match JS.get (clientConfig config) "reconnect" with
          | Some v => Some v
          | None => Some (JS.VBool true)
          end)).
Proof.
  pose proof (guard_incomplete given) as G.
  unfold constructor.
  destruct (guard given) eqn:Eg.
  - assert (I : incomplete given) by now apply G.
    split; [split; auto | split].
    + intros err. split; [discriminate | intros [N _]; contradiction].
    + intros config options H. discriminate.
  - assert (N : ~ incomplete given).
    { intros I. apply G in I. discriminate. }
    destruct (createClient_throws (bindClientOptions given)) as [e |] eqn:C.
    + split; [split; [discriminate | contradiction] | split].
      * intros err. split.
        -- intros H. injection H as <-. auto.
        -- intros [_ H]. congruence.
      * intros config options H. discriminate.
    + split; [split; [discriminate | contradiction] | split].
      * intros err. split; [discriminate | intros [_ H]; discriminate].
      * intros config options H. injection H as <- <-.
        assert (T : JS.truthy_opt (given_bindDn given) = true /\
                    JS.truthy_opt (given_bindPassword given) = true /\
                    JS.truthy_opt (given_userDn given) = true /\
                    JS.truthy_opt (given_provider given) = true).
        { unfold incomplete in N.
          destruct (JS.truthy_opt (given_bindDn given)),
                   (JS.truthy_opt (given_bindPassword given)),
                   (JS.truthy_opt (given_userDn given)),
                   (JS.truthy_opt (given_provider given)); auto 10;
            exfalso; apply N; auto 10. }
        destruct T as (T1 & T2 & T3 & T4).
        destruct (given_bindDn given) as [bd |]; [| discriminate].
        destruct (given_bindPassword given) as [bp |]; [| discriminate].
        destruct (given_userDn given) as [ud |]; [| discriminate].
        destruct (given_provider given) as [pr |]; [| discriminate].
        cbn [bindDn bindPassword userDn provider clientUrl client groupDn
             JS.nullish].
        repeat split; auto.
        intros Hnd. unfold bindClientOptions, clientConfig in *. cbn [client] in *.
        rewrite get_assign by exact Hnd.
        destruct (JS.get _ "reconnect"); reflexivity.
Qed.

(* ===================================================================== *)
(** ** Search responses: health check, lookup and groups                 *)
(* ===================================================================== *)

Lemma handleError_cases (e : Error) :
  handleError e = InvalidCredentialsException \/
  handleError e =
    ServiceUnavailableException "Service returned unexpected error" "ldap" (message e).
Proof. unfold handleError. destruct (class e); auto. Qed.

Lemma handleError_in_taxonomy (provider : string) (e : Error) :
  in_taxonomy provider (handleError e).
Proof.
  destruct (handleError_cases e) as [-> | ->]; [now left | right; left; eauto].
Qed.

(** A property of the promise that holds while it is pending and for
    whatever a listener settles it with holds at the end. *)
Lemma listen_invariant {S A : Type} (P : Promise A -> Prop)
    (handler : S -> SearchEvent -> S * Promise A) (init : S)
    (events : list SearchEvent) :
  P Pending -> (forall s ev, P (snd (handler s ev))) ->
  P (snd (listen handler init events)).
Proof.
  intros HP Hh. unfold listen.
  assert (G : forall acc, P (snd acc) ->
                          P (snd (fold_left (listen_step handler) events acc))).
  { induction events as [| ev events IH]; intros acc Hacc; [exact Hacc |].
    cbn [fold_left]. apply IH. unfold listen_step.
    specialize (Hh (fst acc) ev). destruct (handler (fst acc) ev) as [s' q].
    cbn [snd] in *. destruct (snd acc); cbn [settle]; auto. }
  apply G. exact HP.
Qed.

(** Events whose listeners settle nothing leave the promise pending. *)
Lemma listen_pending {S A : Type}
    (handler : S -> SearchEvent -> S * Promise A) (init : S)
    (events : list SearchEvent) :
  (forall ev, In ev events -> forall s, snd (handler s ev) = Pending) ->
  snd (listen handler init events) = Pending.
Proof.
  intros Hq. unfold listen.
  assert (G : forall acc, snd acc = Pending ->
                          snd (fold_left (listen_step handler) events acc) = Pending).
  { revert Hq. induction events as [| ev events IH]; intros Hq acc Hacc.
    - exact Hacc.
    - cbn [fold_left]. apply IH.
      + intros ev' Hev'. apply Hq. now right.
      + unfold listen_step.
        pose proof (Hq ev (or_introl eq_refl) (fst acc)) as K.
        destruct (handler (fst acc) ev) as [s' q]. cbn [snd] in *.
        rewrite Hacc, K. reflexivity. }
  apply G. reflexivity.
Qed.

(** When every event settles, the first event decides. *)
Lemma listen_first_event {S A : Type}
    (handler : S -> SearchEvent -> S * Promise A) (init : S)
    (ev : SearchEvent) (rest : list SearchEvent) :
  snd (handler init ev) <> Pending ->
  snd (listen handler init (ev :: rest)) = snd (handler init ev).
Proof.
  intros H. destruct (handler init ev) as [s' q] eqn:E.
  apply (listen_first handler init s'); [exact E | exact H].
Qed.

Lemma fetchUserId_spec (toLowerCase LOWER : string -> string)
    (userDn uid : string) (d : DB.Database) :
  fetchUserId toLowerCase LOWER userDn d = Some uid <->
  exists before row after,
    DB.directus_users d = before ++ row :: after /\
    DB.id row = uid /\
    same_dn toLowerCase LOWER (DB.external_identifier row) userDn /\
    forall r, In r before ->
              ~ same_dn toLowerCase LOWER (DB.external_identifier r) userDn.
Proof.
  assert (M : forall row,
             DB.sql_eq (DB.LOWER LOWER (DB.external_identifier row))
                       (toLowerCase userDn)
             = true <-> same_dn toLowerCase LOWER (DB.external_identifier row) userDn).
  { intros row. unfold same_dn, DB.sql_eq, DB.LOWER.
    destruct (DB.external_identifier row) as [s |]; cbn [option_map].
    - rewrite String.eqb_eq. split.
      + intros E. exists s. split; [reflexivity | exact E].
      + intros (s' & E1 & E2). injection E1 as <-. exact E2.
    - split; [discriminate | intros (s' & E1 & _); discriminate]. }
  unfold fetchUserId. split.
  - intros H.
    destruct (DB.first (List.filter _ (DB.directus_users d))) as [row |] eqn:E;
      [| discriminate].
    cbn [option_map] in H. injection H as H.
    apply first_filter_Some in E. destruct E as (before & after & E & Fr & Hb).
    exists before, row, after. repeat split; auto.
    + now apply M.
    + intros r Hr K. apply M in K. rewrite (Hb r Hr) in K. discriminate.
  - intros (before & row & after & E & Hid & Hm & Hb).
    assert (F : DB.first
                  (List.filter
                     (fun row => DB.sql_eq
                                   (DB.LOWER LOWER (DB.external_identifier row))
                                   (toLowerCase userDn))
                     (DB.directus_users d)) = Some row).
    { apply first_filter_Some. exists before, after. repeat split; auto.
      - now apply M.
      - intros r Hr.
        destruct (DB.sql_eq (DB.LOWER LOWER (DB.external_identifier r))
                            (toLowerCase userDn)) eqn:K; [| reflexivity].
        exfalso. apply (Hb r Hr). now apply M. }
    rewrite F. cbn [option_map]. now rewrite Hid.
Qed.

(** On names of ASCII characters the lookup's comparison is equality up
    to case. *)
Lemma fetchUserId_first_caseless
    (toLowerCase LOWER : string -> string) (userDn : string) (d : DB.Database)
    (Hjs : forall s, ASCII.only s -> toLowerCase s = ASCII.lower s)
    (Hsql : forall s, ASCII.only s -> LOWER s = ASCII.lower s)
    (Hdn : ASCII.only userDn)
    (Hrows : Forall (fun row => forall s, DB.external_identifier row = Some s ->
                                          ASCII.only s)
                    (DB.directus_users d)) :
  (forall uid,
     fetchUserId toLowerCase LOWER userDn d = Some uid <->
     exists before row after,
       DB.directus_users d = before ++ row :: after /\
       DB.id row = uid /\
       caseless_dn (DB.external_identifier row) userDn /\
       forall r, In r before -> ~ caseless_dn (DB.external_identifier r) userDn) /\
  (forall row, DB.external_identifier row = None ->
               ~ caseless_dn (DB.external_identifier row) userDn).
Proof.
  rewrite Forall_forall in Hrows.
  assert (M : forall row, In row (DB.directus_users d) ->
                same_dn toLowerCase LOWER (DB.external_identifier row) userDn
                <-> caseless_dn (DB.external_identifier row) userDn).
  { intros row Hrow. unfold same_dn, caseless_dn. split.
    - intros (s & E & K). exists s. split; [exact E |].
      rewrite (Hsql s (Hrows row Hrow s E)), (Hjs userDn Hdn) in K.
      now apply lower_caseless.
    - intros (s & E & K). exists s. split; [exact E |].
      rewrite (Hsql s (Hrows row Hrow s E)), (Hjs userDn Hdn).
      now apply lower_caseless. }
  split.
  - intros uid. rewrite fetchUserId_spec. split.
    + intros (before & row & after & E & Hid & Hm & Hb).
      assert (Hin : forall x, In x (before ++ row :: after) ->
                              In x (DB.directus_users d)) by now rewrite E.
      exists before, row, after. repeat split; auto.
      * apply M; [apply Hin, in_elt | exact Hm].
      * intros r Hr K. apply (Hb r Hr). apply M; [| exact K].
        apply Hin, in_or_app. now left.
    + intros (before & row & after & E & Hid & Hm & Hb).
      assert (Hin : forall x, In x (before ++ row :: after) ->
                              In x (DB.directus_users d)) by now rewrite E.
      exists before, row, after. repeat split; auto.
      * apply M; [apply Hin, in_elt | exact Hm].
      * intros r Hr K. apply (Hb r Hr). apply M; [| exact K].
        apply Hin, in_or_app. now left.
  - intros row Hnone (s & E & _). congruence.
Qed.

(** X5. The lookup of the internal user takes the first row whose
    external identifier, as the database lowers it, equals the
    distinguished name as the runtime lowers it. On identifiers and names
    of ASCII characters, where both lower the letters A-Z, that is the
    first row whose external identifier equals the name up to the case
    of its letters; a row without external identifier never matches. *)
Theorem fetchUserId_first_match_up_to_case
    (toLowerCase LOWER : string -> string) (userDn : string) (d : DB.Database) :
  (forall uid,
     fetchUserId toLowerCase LOWER userDn d = Some uid <->
     first_linked toLowerCase LOWER d userDn uid) /\
  (forall row, DB.external_identifier row = None ->
               ~ same_dn toLowerCase LOWER (DB.external_identifier row) userDn) /\
  ((forall s, ASCII.only s -> toLowerCase s = ASCII.lower s) ->
   (forall s, ASCII.only s -> LOWER s = ASCII.lower s) ->
   ASCII.only userDn ->
   Forall (fun row => forall s, DB.external_identifier row = Some s ->
                                ASCII.only s)
          (DB.directus_users d) ->
   (forall uid,
      fetchUserId toLowerCase LOWER userDn d = Some uid <->
      exists before row after,
        DB.directus_users d = before ++ row :: after /\
        DB.id row = uid /\
        caseless_dn (DB.external_identifier row) userDn /\
        forall r, In r before -> ~ caseless_dn (DB.external_identifier r) userDn) /\
   (forall row, DB.external_identifier row = None ->
                ~ caseless_dn (DB.external_identifier row) userDn)).
Proof.
  split; [intros uid; apply fetchUserId_spec | split].
  - intros row Hnone (s & E & _). congruence.
  - intros Hjs Hsql Hdn Hrows. now apply fetchUserId_first_caseless.
Qed.

Section DriverResponses.

Variable parseNumber : string -> JS.number.
Variable toLowerCase : string -> string.
Variable LOWER : string -> string.
Variable config : Config.
Variable search : option string -> SearchOptions -> SearchResponse.
Variable rebind : string -> string -> option Error.
Variable usersService : ServiceCall -> DB.Database -> Promise unit * DB.Database.

Lemma validateBindClient_rejections (x : Thrown) :
  validateBindClient config search rebind = Rejected x ->
  in_taxonomy (provider config) x \/
  (exists e, x = RawError e /\
             search (Some (bindDn config)) noOptions = SearchThrows e).
Proof.
  unfold validateBindClient.
  destruct (search (Some (bindDn config)) noOptions) as [err | err | events] eqn:S.
  - intros H. injection H as <-. right. eauto.
  - intros H. injection H as <-. left. apply handleError_in_taxonomy.
  - match goal with
    | |- snd (listen ?h ?i events) = _ -> _ =>
        pose proof (listen_invariant
                      (fun p => forall y, p = Rejected y ->
                                          in_taxonomy (provider config) y)
                      h i events) as Inv
    end.
    intros H. left. apply Inv; [discriminate | | exact H].
    intros [] ev y. cbn [snd].
    destruct ev as [o | err | [r |]]; try discriminate.
    + destruct (is_OperationsError err); cbn [negb].
      * destruct (rebind (bindDn config) (bindPassword config)) as [e |];
          [| discriminate].
        destruct (handleError_cases e) as [E | E]; rewrite E;
          cbn [is_InvalidCredentialsException]; intros K; injection K as <-.
        -- right; right; left; reflexivity.
        -- right; left; eauto.
      * intros K. injection K as <-. apply handleError_in_taxonomy.
    + destruct (status r =? 0)%Z; [| discriminate].
      intros K. injection K as <-. right; right; right; reflexivity.
Qed.

Lemma fetchUserInfo_rejections (userDn : option string) (x : Thrown) :
  fetchUserInfo parseNumber config search userDn = Rejected x ->
  (exists e, x = handleError e) \/
  (exists e, x = RawError e /\ search userDn (infoSearch config) = SearchThrows e).
Proof.
  unfold fetchUserInfo. fold (infoSearch config).
  destruct (search userDn (infoSearch config)) as [err | err | events].
  - intros H. injection H as <-. right. eauto.
  - intros H. injection H as <-. left. eauto.
  - match goal with
    | |- snd (listen ?h ?i events) = _ -> _ =>
        pose proof (listen_invariant
                      (fun p => forall y, p = Rejected y -> exists e, y = handleError e)
                      h i events) as Inv
    end.
    intros H. left. apply Inv; [discriminate | | exact H].
    intros [] ev y. cbn [snd]. destruct ev; try discriminate.
    intros K. injection K as <-. eauto.
Qed.

Lemma fetchUserDn_rejections (identifier : string) (x : Thrown) :
  fetchUserDn toLowerCase config search identifier = Rejected x ->
  (exists e, x = handleError e) \/ thrown_by_search search x.
Proof.
  unfold fetchUserDn.
  destruct (search _ _) as [err | err | events] eqn:S.
  - intros H. injection H as <-. right. unfold thrown_by_search. eauto.
  - intros H. injection H as <-. left. eauto.
  - match goal with
    | |- snd (listen ?h ?i events) = _ -> _ =>
        pose proof (listen_invariant
                      (fun p => forall y, p = Rejected y -> exists e, y = handleError e)
                      h i events) as Inv
    end.
    intros H. left. apply Inv; [discriminate | | exact H].
    intros [] ev y. cbn [snd]. destruct ev; try discriminate.
    intros K. injection K as <-. eauto.
Qed.

Lemma fetchUserGroups_rejections (userDn : string) (x : Thrown) :
  fetchUserGroups config search userDn = Rejected x ->
  (exists e, x = handleError e) \/ thrown_by_search search x.
Proof.
  unfold fetchUserGroups.
  destruct (groupDn config) as [base |]; [| discriminate].
  destruct (JS.truthy_string base); [| discriminate].
  destruct (search _ _) as [err | err | events] eqn:S.
  - intros H. injection H as <-. right. unfold thrown_by_search. eauto.
  - intros H. injection H as <-. left. eauto.
  - match goal with
    | |- snd (listen ?h ?i events) = _ -> _ =>
        pose proof (listen_invariant
                      (fun p => forall y, p = Rejected y -> exists e, y = handleError e)
                      h i events) as Inv
    end.
    intros H. left. apply Inv; [discriminate | | exact H].
    intros groups ev y. destruct ev; cbn [snd]; try discriminate.
    intros K. injection K as <-. eauto.
Qed.

(** X6. [refresh] rejects with an exception of the fixed taxonomy
    (InvalidCredentials, ServiceUnavailable for the service ldap,
    InvalidConfig for the bind user of this provider, UnexpectedResponse)
    in every case but one: when the call of [search] itself throws, for
    the bind user or for the user's external identifier, that error comes
    out as it is. An error the directory reports is never passed on raw. *)
Theorem refresh_rejections_in_taxonomy (user : User) (x : Thrown)
    (H : refresh parseNumber config search rebind user = Rejected x) :
  (in_taxonomy (provider config) x /\ forall e, x <> RawError e) \/
  (exists e,
     x = RawError e /\
     (search (Some (bindDn config)) noOptions = SearchThrows e \/
      search (external_identifier user) (infoSearch config) = SearchThrows e)).
Proof.
  assert (T : forall y, in_taxonomy (provider config) y -> forall e, y <> RawError e).
  { intros y [-> | [(c & ->) | [-> | ->]]] e; discriminate. }
  unfold refresh in H.
  destruct (validateBindClient config search rebind) as [[] | y |] eqn:V;
    cbn [await] in H; try discriminate.
  - destruct (fetchUserInfo parseNumber config search (external_identifier user))
      as [info | y |] eqn:F; cbn [await] in H; try discriminate.
    + destruct (accountInvalid info); [| discriminate].
      injection H as <-. left. split; [now left | discriminate].
    + injection H as <-. apply fetchUserInfo_rejections in F.
      destruct F as [(e & ->) | (e & -> & S)].
      * left. split; [apply handleError_in_taxonomy |].
        apply T, handleError_in_taxonomy.
      * right. eauto.
  - injection H as <-. apply validateBindClient_rejections in V.
    destruct V as [I | (e & -> & S)].
    + left. split; [exact I | now apply T].
    + right. eauto.
Qed.

(** X7. When the health check's search fails with an operations error the
    driver binds again with the service credentials: the check passes if
    that bind succeeds, a bind failure is reported as InvalidConfig for
    the provider (not as InvalidCredentials), and any other error as
    ServiceUnavailable. *)
Theorem validateBindClient_rebinds_on_operations_error
    (err : Error) (rest : list SearchEvent)
    (Hsearch : search (Some (bindDn config)) noOptions
               = SearchStarted (searchError err :: rest))
    (Hops : class err = OperationsError) :
  (rebind (bindDn config) (bindPassword config) = None ->
   validateBindClient config search rebind = Resolved tt) /\
  (forall e, rebind (bindDn config) (bindPassword config) = Some e ->
             bind_failure e ->
             validateBindClient config search rebind
             = Rejected (InvalidConfigException "Invalid bind user" (provider config))) /\
  (forall e, rebind (bindDn config) (bindPassword config) = Some e ->
             ~ bind_failure e ->
             validateBindClient config search rebind
             = Rejected (ServiceUnavailableException
                           "Service returned unexpected error" "ldap" (message e))).
Proof.
  assert (O : is_OperationsError err = true)
    by (unfold is_OperationsError; now rewrite Hops).
  unfold validateBindClient. rewrite Hsearch.
  repeat split.
  - intros R. rewrite listen_first_event; cbn [snd]; rewrite O, R; cbn [negb];
      [reflexivity | discriminate].
  - intros e R B. apply handleError_bind_failure in B.
    rewrite listen_first_event; cbn [snd]; rewrite O, R, B; cbn [negb];
      [reflexivity | discriminate].
  - intros e R B. apply handleError_transport in B.
    rewrite listen_first_event; cbn [snd]; rewrite O, R, B; cbn [negb];
      [reflexivity | discriminate].
Qed.

(** X8. The health check passes as soon as the search for the bind user
    yields an entry, whatever follows; it rejects with UnexpectedResponse
    when the search ends with status 0 before any entry; and it never
    settles when the response only ends without result or with another
    status. *)
Theorem validateBindClient_entry_or_end (events : list SearchEvent)
    (Hsearch : search (Some (bindDn config)) noOptions = SearchStarted events) :
  (forall object rest, events = searchEntry object :: rest ->
     validateBindClient config search rebind = Resolved tt) /\
  (forall r rest, events = searchEnd (Some r) :: rest -> status r = 0%Z ->
     validateBindClient config search rebind
     = Rejected (UnexpectedResponseException "Failed to find bind user record")) /\
  (Forall quiet events -> validateBindClient config search rebind = Pending).
Proof.
  unfold validateBindClient. rewrite Hsearch. repeat split.
  - intros object rest ->. rewrite listen_first_event; [reflexivity | discriminate].
  - intros r rest -> Hr.
    rewrite listen_first_event; cbn [snd]; rewrite Hr; [reflexivity | discriminate].
  - intros Hq. apply listen_pending. intros ev Hev [].
    rewrite Forall_forall in Hq. destruct (Hq ev Hev) as [-> | (r & -> & Hr)].
    + reflexivity.
    + cbn [snd]. destruct (Z.eqb_spec (status r) 0); [contradiction | reflexivity].
Qed.

End DriverResponses.

(* ===================================================================== *)
(** ** Resolving the internal user                                       *)
(* ===================================================================== *)

Lemma fetchRole_no_groups (toLowerCase LOWER : string -> string)
    (d : DB.Database) :
  fetchRole toLowerCase LOWER [] d = None.
Proof.
  unfold fetchRole. cbn [map].
  induction (DB.directus_roles d) as [| r l IH]; [reflexivity | exact IH].
Qed.

Section DriverLogin.

Variable parseNumber : string -> JS.number.
Variable toLowerCase : string -> string.
Variable LOWER : string -> string.
Variable config : Config.
Variable search : option string -> SearchOptions -> SearchResponse.
Variable rebind : string -> string -> option Error.
Variable usersService : ServiceCall -> DB.Database -> Promise unit * DB.Database.

Lemma fetchUserDn_spec (identifier d : string) :
  fetchUserDn toLowerCase config search identifier = Resolved (Some d) <->
  exists object rest,
    search (Some (userDn config)) (userSearch config identifier)
    = SearchStarted (searchEntry object :: rest) /\
    d = toLowerCase (dn object).
Proof.
  unfold fetchUserDn. fold (userSearch config identifier).
  destruct (search (Some (userDn config)) (userSearch config identifier))
    as [err | err | [| ev rest]].
  - split; [discriminate | intros (o & r & K & _); discriminate].
  - split; [discriminate | intros (o & r & K & _); discriminate].
  - split; [discriminate | intros (o & r & K & _); discriminate].
  - rewrite listen_first_event by (destruct ev; discriminate).
    destruct ev as [o | e | r]; cbn [snd].
    + split.
      * intros K. injection K as <-. eauto.
      * intros (o' & r' & K & ->). injection K as <- _. reflexivity.
    + split; [discriminate | intros (o' & r' & K & _); discriminate].
    + split; [discriminate | intros (o' & r' & K & _); discriminate].
Qed.

(** X9. The first event of the user search decides [fetchUserDn], whatever
    follows it: a distinguished name comes out exactly when that event is
    an entry, and it is the entry's name as [toLowerCase] returns it; no
    name comes out exactly when that event is the end of the search; and
    an error event rejects with its translation. *)
Theorem fetchUserDn_first_entry_lowercased (identifier : string) :
  (forall d,
     fetchUserDn toLowerCase config search identifier = Resolved (Some d) <->
     exists object rest,
       search (Some (userDn config)) (userSearch config identifier)
       = SearchStarted (searchEntry object :: rest) /\
       d = toLowerCase (dn object)) /\
  (fetchUserDn toLowerCase config search identifier = Resolved None <->
   exists result rest,
     search (Some (userDn config)) (userSearch config identifier)
     = SearchStarted (searchEnd result :: rest)) /\
  (forall e rest,
     search (Some (userDn config)) (userSearch config identifier)
     = SearchStarted (searchError e :: rest) ->
     fetchUserDn toLowerCase config search identifier = Rejected (handleError e)).
Proof.
  split; [intros d; apply fetchUserDn_spec |].
  unfold fetchUserDn. fold (userSearch config identifier).
  destruct (search (Some (userDn config)) (userSearch config identifier))
    as [err | err | [| ev rest]].
  - split; [| discriminate].
    split; [discriminate | intros (o & r & K); discriminate].
  - split; [| discriminate].
    split; [discriminate | intros (o & r & K); discriminate].
  - split; [| discriminate].
    split; [discriminate | intros (o & r & K); discriminate].
  - rewrite listen_first_event by (destruct ev; discriminate).
    destruct ev as [o | e | r]; cbn [snd].
    + split; [| discriminate].
      split; [discriminate | intros (o' & r' & K); discriminate].
    + split; [| intros e' rest' K; injection K as <- _; reflexivity].
      split; [discriminate | intros (o' & r' & K); discriminate].
    + split; [| discriminate]. split; eauto.
Qed.

(** X10. An error of the group search rejects [fetchUserGroups] and the names
    gathered before it are dropped; a group search that never ends leaves
    the promise pending, entries or not. *)
Theorem fetchUserGroups_error_or_silence (member base : string)
    (groups : list SearchEntryObject)
    (Hbase : groupDn config = Some base)
    (Htruthy : JS.truthy_string base = true) :
  (forall e more,
     search (Some base) (groupSearch config member)
     = SearchStarted (map searchEntry groups ++ searchError e :: more) ->
     fetchUserGroups config search member = Rejected (handleError e)) /\
  (search (Some base) (groupSearch config member)
   = SearchStarted (map searchEntry groups) ->
   fetchUserGroups config search member = Pending).
Proof.
  unfold fetchUserGroups. fold (groupSearch config member).
  rewrite Hbase, Htruthy. split.
  - intros e more ->. unfold listen. rewrite listen_groups.
    cbn [fold_left]. unfold listen_step at 2. cbn [fst snd settle].
    apply listen_step_settled. discriminate.
  - intros ->. unfold listen.
    rewrite <- (app_nil_r (map searchEntry groups)), listen_groups.
    reflexivity.
Qed.

Lemma resolveRole_run (userGroups : list string) (w : World) :
  (match userGroups with
   | [] => ret None
   | _ :: _ => query (fetchRole toLowerCase LOWER userGroups)
   end) w = (Resolved (fetchRole toLowerCase LOWER userGroups (db w)), w).
Proof.
  destruct userGroups; [| reflexivity].
  unfold ret. now rewrite fetchRole_no_groups.
Qed.

Lemma getUserID_cases (identifier : option string) (w : World) :
  let run := getUserID parseNumber toLowerCase LOWER
        config search rebind usersService identifier w in
  (snd run = w /\
   (fst run = Pending \/
    exists x, fst run = Rejected x /\
              (in_taxonomy (provider config) x \/ thrown_by_search search x)))
  \/
  (exists userDn uid userGroups,
     JS.truthy_opt identifier = true /\
     validateBindClient config search rebind = Resolved tt /\
     JS.truthy_string userDn = true /\
     fetchUserDn toLowerCase
           config search (JS.nullish identifier "") = Resolved (Some userDn) /\
     fetchUserId toLowerCase LOWER userDn (db w) = Some uid /\
     JS.truthy_string uid = true /\
     fetchUserGroups config search userDn = Resolved userGroups /\
     let c := updateOne uid
                [("role", role_value (fetchRole toLowerCase LOWER
                      userGroups (db w)) JS.VNull)] in
     run = (let* _ := fst (usersService c (db w)) in Resolved (Some uid),
            mkWorld (snd (usersService c (db w))) (service_calls w ++ [c])))
  \/
  (exists userDn userGroups userInfo,
     JS.truthy_opt identifier = true /\
     validateBindClient config search rebind = Resolved tt /\
     JS.truthy_string userDn = true /\
     fetchUserDn toLowerCase
           config search (JS.nullish identifier "") = Resolved (Some userDn) /\
     JS.truthy_opt (fetchUserId toLowerCase LOWER userDn (db w)) = false /\
     fetchUserGroups config search userDn = Resolved userGroups /\
     fetchUserInfo parseNumber config search (Some userDn)
     = Resolved (Some userInfo) /\
     let c := createOne (newUser config userDn userInfo
                                 (fetchRole toLowerCase LOWER userGroups (db w))) in
     run = (let* _ := fst (usersService c (db w)) in
            Resolved (fetchUserId toLowerCase LOWER userDn (snd (usersService c (db w)))),
            mkWorld (snd (usersService c (db w))) (service_calls w ++ [c]))).
Proof.
  intros run. subst run.
  assert (ICE : in_taxonomy (provider config) InvalidCredentialsException
                \/ thrown_by_search search InvalidCredentialsException)
    by (left; now left).
  assert (HE : forall e, in_taxonomy (provider config) (handleError e)
                         \/ thrown_by_search search (handleError e))
    by (intros e; left; apply handleError_in_taxonomy).
  unfold getUserID, awaitA, lift, throw, call.
  destruct (JS.truthy_opt identifier) eqn:Hid; cbn [negb];
    [| left; split; [reflexivity | right; eexists; split; [reflexivity | exact ICE]]].
  destruct (validateBindClient config search rebind) as [[] | x |] eqn:V;
    [| left; split; [reflexivity |
                     right; eexists; split; [reflexivity |]];
       apply validateBindClient_rejections in V;
       destruct V as [V | (e & -> & V)];
       [now left | right; unfold thrown_by_search; eauto]
     | left; split; [reflexivity | now left]].
  destruct (fetchUserDn toLowerCase
        config search (JS.nullish identifier "")) as [od | x |] eqn:D;
    [| left; split; [reflexivity |
                     right; eexists; split; [reflexivity |]];
       apply fetchUserDn_rejections in D; destruct D as [(e & ->) | D];
       [apply HE | now right]
     | left; split; [reflexivity | now left]].
  destruct (JS.truthy_opt od) eqn:Td; cbn [negb];
    [| left; split; [reflexivity | right; eexists; split; [reflexivity | exact ICE]]].
  destruct od as [userDn |]; [| discriminate]. cbn [JS.nullish].
  change (query (fetchUserId toLowerCase LOWER userDn) w)
    with (Resolved (fetchUserId toLowerCase LOWER userDn (db w)), w).
  cbv beta iota.
  destruct (fetchUserGroups config search userDn) as [userGroups | x |] eqn:G;
    [| left; split; [reflexivity |
                     right; eexists; split; [reflexivity |]];
       apply fetchUserGroups_rejections in G; destruct G as [(e & ->) | G];
       [apply HE | now right]
     | left; split; [reflexivity | now left]].
  rewrite resolveRole_run. cbv beta iota. unfold query, ret.
  destruct (JS.truthy_opt (fetchUserId toLowerCase LOWER userDn (db w))) eqn:Tu.
  - right; left.
    destruct (fetchUserId toLowerCase LOWER userDn (db w)) as [uid |] eqn:U; [| discriminate].
    cbn [JS.truthy_opt] in Tu. cbn [JS.nullish].
    exists userDn, uid, userGroups. repeat split; auto.
    unfold role_value, await.
    destruct (usersService _ (db w)) as [[u | x |] db']; reflexivity.
  - destruct (fetchUserInfo parseNumber config search (Some userDn))
      as [[userInfo |] | x |] eqn:I.
    + right; right. exists userDn, userGroups, userInfo. repeat split; auto.
      unfold newUser, role_value, await.
      destruct (usersService _ (db w)) as [[u | x |] db']; reflexivity.
    + left; split; [reflexivity | right; eexists; split; [reflexivity | exact ICE]].
    + left; split; [reflexivity | right; eexists; split; [reflexivity |]].
      apply fetchUserInfo_rejections in I. destruct I as [(e & ->) | (e & -> & I)].
      * apply HE.
      * right. unfold thrown_by_search. eauto.
    + left; split; [reflexivity | now left].
Qed.

Lemma getUserID_linked_run (identifier : option string) (w : World)
    (userDn uid : string) (userGroups : list string) :
  JS.truthy_opt identifier = true ->
  validateBindClient config search rebind = Resolved tt ->
  fetchUserDn toLowerCase config search (JS.nullish identifier "") = Resolved (Some userDn) ->
  JS.truthy_string userDn = true ->
  fetchUserId toLowerCase LOWER userDn (db w) = Some uid ->
  JS.truthy_string uid = true ->
  fetchUserGroups config search userDn = Resolved userGroups ->
  let c := updateOne uid
             [("role", role_value (fetchRole toLowerCase LOWER userGroups (db w)) JS.VNull)] in
  getUserID parseNumber toLowerCase LOWER config search rebind usersService identifier w
  = (let* _ := fst (usersService c (db w)) in Resolved (Some uid),
     mkWorld (snd (usersService c (db w))) (service_calls w ++ [c])).
Proof.
  intros Hid Hbind Hdn HdnT Huid HuidT Hgroups c. subst c.
  unfold getUserID, awaitA, lift, throw, call.
  rewrite Hid. cbn [negb]. rewrite Hbind, Hdn.
  cbn [JS.truthy_opt JS.nullish]. rewrite HdnT. cbn [negb].
  change (query (fetchUserId toLowerCase LOWER userDn) w)
    with (Resolved (fetchUserId toLowerCase LOWER userDn (db w)), w).
  cbv beta iota. rewrite Hgroups, resolveRole_run. cbv beta iota.
  unfold query, ret. rewrite Huid. cbn [JS.truthy_opt JS.nullish]. rewrite HuidT.
  unfold role_value, await.
  destruct (usersService _ (db w)) as [[u | x |] db']; reflexivity.
Qed.

(** X11. An authentication writes at most once: either nothing, and then the
    database and the call log are as before; or one update, which sets the
    role and nothing else, of the user that the lookup links to the name
    the directory returned for the identifier; or one creation, made only
    when the lookup finds no such user with an id, whose external
    identifier is that name as [fetchUserDn] returned it (the first
    entry's name passed through [toLowerCase]) and whose provider is the
    driver's. *)
Theorem getUserID_writes_at_most_once (identifier : option string) (w : World) :
  exists cs,
    service_calls
      (snd (getUserID parseNumber toLowerCase LOWER
            config search rebind usersService identifier w))
    = service_calls w ++ cs /\
    length cs <= 1 /\
    (cs = [] ->
     snd (getUserID parseNumber toLowerCase LOWER
           config search rebind usersService identifier w) = w) /\
    (forall key data, In (updateOne key data) cs ->
       JS.keys data = ["role"] /\
       exists object rest,
         search (Some (userDn config))
                (userSearch config (JS.nullish identifier ""))
         = SearchStarted (searchEntry object :: rest) /\
         fetchUserId toLowerCase LOWER (toLowerCase (dn object)) (db w) = Some key) /\
    (forall data, In (createOne data) cs ->
       JS.get data "provider" = Some (JS.VString (provider config)) /\
       exists object rest,
         search (Some (userDn config))
                (userSearch config (JS.nullish identifier ""))
         = SearchStarted (searchEntry object :: rest) /\
         JS.get data "external_identifier"
         = Some (JS.VString (toLowerCase (dn object))) /\
         JS.truthy_opt (fetchUserId toLowerCase LOWER (toLowerCase (dn object)) (db w))
         = false).
Proof.
  destruct (getUserID_cases identifier w)
    as [(Hw & _)
       | [(userDn & uid & groups & _ & _ & _ & Hdn & Hu & _ & _ & Hrun)
         | (userDn & groups & info & _ & _ & _ & Hdn & Hu & _ & _ & Hrun)]].
  - exists []. rewrite Hw, app_nil_r. repeat split; auto; intros; contradiction.
  - cbv zeta in Hrun. rewrite Hrun. cbn [snd service_calls].
    apply fetchUserDn_spec in Hdn. destruct Hdn as (object & rest & Hs & ->).
    eexists. split; [reflexivity |]. split; [cbn; lia |]. split; [discriminate |].
    split.
    + intros key data [H | []]. injection H as <- <-. split; [reflexivity | eauto].
    + intros data [H | []]. discriminate.
  - cbv zeta in Hrun. rewrite Hrun. cbn [snd service_calls].
    apply fetchUserDn_spec in Hdn. destruct Hdn as (object & rest & Hs & ->).
    eexists. split; [reflexivity |]. split; [cbn; lia |]. split; [discriminate |].
    split.
    + intros key data [H | []]. discriminate.
    + intros data [H | []]. injection H as <-. split; [reflexivity |].
      exists object, rest. split; [exact Hs | split; [reflexivity | exact Hu]].
Qed.

(** X13. The id [getUserID] resolves with belongs to the user linked to the
    name [fetchUserDn] returned for the identifier. Either that user was
    the first of the table, as it was before the call, whose external
    identifier lowered by the database equals the lowered name, and the
    call only updated that user's role; or the lookup found no user with
    an id before the call, the call created one, and the id is that of
    the first such user of the table as the creation left it. *)
Theorem getUserID_returns_linked_user (identifier : option string) (w : World)
    (uid : string)
    (H : fst (getUserID parseNumber toLowerCase LOWER
          config search rebind usersService identifier w)
         = Resolved (Some uid)) :
  exists userDn,
    fetchUserDn toLowerCase config search (JS.nullish identifier "")
    = Resolved (Some userDn) /\
    ((first_linked toLowerCase LOWER (db w) userDn uid /\
      exists role,
        service_calls
          (snd (getUserID parseNumber toLowerCase LOWER config search rebind usersService
                          identifier w))
        = service_calls w ++ [updateOne uid [("role", role)]])
     \/
     (JS.truthy_opt (fetchUserId toLowerCase LOWER userDn (db w)) = false /\
      first_linked toLowerCase LOWER
        (db (snd (getUserID parseNumber toLowerCase LOWER config search rebind usersService
                            identifier w)))
        userDn uid /\
      exists data,
        JS.get data "external_identifier" = Some (JS.VString userDn) /\
        service_calls
          (snd (getUserID parseNumber toLowerCase LOWER config search rebind usersService
                          identifier w))
        = service_calls w ++ [createOne data])).
Proof.
  destruct (getUserID_cases identifier w)
    as [(_ & [Hp | (y & Hy & _)])
       | [(userDn & uid' & groups & _ & _ & _ & Hdn & Hu & _ & _ & Hrun)
         | (userDn & groups & info & _ & _ & _ & Hdn & Hu & _ & _ & Hrun)]];
    try congruence.
  - cbv zeta in Hrun. rewrite Hrun in *. cbn [fst snd service_calls] in *.
    assert (E : uid' = uid).
    { destruct (fst (usersService _ (db w))); cbn [await] in H; congruence. }
    subst uid'. apply fetchUserId_spec in Hu.
    exists userDn. split; [exact Hdn |]. left. split; [exact Hu | eauto].
  - cbv zeta in Hrun. rewrite Hrun in *. cbn [fst snd db service_calls] in *.
    assert (E : fetchUserId toLowerCase LOWER userDn (snd (usersService
                  (createOne (newUser config userDn info
                                      (fetchRole toLowerCase LOWER groups (db w)))) (db w)))
                = Some uid).
    { destruct (fst (usersService _ (db w))); cbn [await] in H; congruence. }
    apply fetchUserId_spec in E.
    exists userDn. split; [exact Hdn |]. right.
    split; [exact Hu | split; [exact E |]].
    eexists. split; [| reflexivity]. reflexivity.
Qed.

(** X14. A first login that created the user is followed, on the same
    directory, by logins that only update: the second call finds the id
    the first one returned, sets its role and creates nothing. *)
Theorem getUserID_second_login_updates (identifier : option string) (w w1 : World)
    (uid : string) (data : JS.object)
    (Hfirst : getUserID parseNumber toLowerCase LOWER
          config search rebind usersService identifier w
              = (Resolved (Some uid), w1))
    (Hcreated : service_calls w1 = service_calls w ++ [createOne data])
    (Tuid : JS.truthy_string uid = true) :
  exists role,
    service_calls
      (snd (getUserID parseNumber toLowerCase LOWER
            config search rebind usersService identifier w1))
    = service_calls w ++ [createOne data; updateOne uid [("role", role)]].
Proof.
  destruct (getUserID_cases identifier w)
    as [(Hw & _)
       | [(userDn & uid' & groups & _ & _ & _ & _ & _ & _ & _ & Hrun)
         | (userDn & groups & info & Hid & Hbind & HdnT & Hdn & _ & Hg & _ & Hrun)]].
  - rewrite Hfirst in Hw. cbn [snd] in Hw. subst w1.
    exfalso. apply (f_equal (@length _)) in Hcreated.
    rewrite length_app in Hcreated. cbn in Hcreated. lia.
  - cbv zeta in Hrun. rewrite Hfirst in Hrun. injection Hrun as _ Hw1.
    subst w1. cbn [service_calls] in Hcreated.
    apply app_inv_head in Hcreated. discriminate.
  - cbv zeta in Hrun. rewrite Hfirst in Hrun. injection Hrun as Hres Hw1.
    assert (E : fetchUserId toLowerCase LOWER userDn (db w1) = Some uid).
    { rewrite Hw1. cbn [db].
      destruct (fst (usersService _ (db w))); cbn [await] in Hres; congruence. }
    rewrite (getUserID_linked_run identifier w1 userDn uid groups
               Hid Hbind Hdn HdnT E Tuid Hg).
    cbn [snd service_calls]. eexists. rewrite Hcreated, <- app_assoc. reflexivity.
Qed.

(** X15. Without a group search root no group is looked up, so each login of
    a linked user sets the user's role to null. *)
Theorem getUserID_without_group_root_clears_role
    (identifier : option string) (w : World) (userDn uid : string)
    (Hroot : JS.truthy_opt (groupDn config) = false)
    (Hid : JS.truthy_opt identifier = true)
    (Hbind : validateBindClient config search rebind = Resolved tt)
    (Hdn : fetchUserDn toLowerCase config search (JS.nullish identifier "")
           = Resolved (Some userDn))
    (HdnT : JS.truthy_string userDn = true)
    (Huid : fetchUserId toLowerCase LOWER userDn (db w) = Some uid)
    (HuidT : JS.truthy_string uid = true) :
  fetchUserGroups config search userDn = Resolved [] /\
  service_calls
    (snd (getUserID parseNumber toLowerCase LOWER
          config search rebind usersService identifier w))
  = service_calls w ++ [updateOne uid [("role", JS.VNull)]].
Proof.
  assert (G : fetchUserGroups config search userDn = Resolved []).
  { unfold fetchUserGroups. destruct (groupDn config) as [base |]; [| reflexivity].
    cbn [JS.truthy_opt] in Hroot. now rewrite Hroot. }
  split; [exact G |].
  rewrite (getUserID_linked_run identifier w userDn uid [] Hid Hbind Hdn HdnT
             Huid HuidT G).
  cbn [snd service_calls]. now rewrite fetchRole_no_groups.
Qed.

(** X16. An identifier the directory has no entry for is rejected like a
    missing identifier: InvalidCredentials, and nothing is written. *)
Theorem getUserID_unknown_identifier_rejected (identifier : string) (w : World)
    (result : option LDAPResult) (rest : list SearchEvent)
    (Hid : JS.truthy_string identifier = true)
    (Hbind : validateBindClient config search rebind = Resolved tt)
    (Hsearch : search (Some (userDn config)) (userSearch config identifier)
               = SearchStarted (searchEnd result :: rest)) :
  getUserID parseNumber toLowerCase LOWER config search rebind usersService (Some identifier) w
  = (Rejected InvalidCredentialsException, w) /\
  getUserID parseNumber toLowerCase LOWER config search rebind usersService None w
  = (Rejected InvalidCredentialsException, w).
Proof.
  split; [| reflexivity].
  assert (D : fetchUserDn toLowerCase config search identifier = Resolved None).
  { unfold fetchUserDn. fold (userSearch config identifier). rewrite Hsearch.
    rewrite listen_first_event; [reflexivity | discriminate]. }
  unfold getUserID, awaitA, lift, throw.
  cbn [JS.truthy_opt JS.nullish]. rewrite Hid. cbn [negb].
  rewrite Hbind, D. reflexivity.
Qed.

End DriverLogin.
(* ===================================================================== *)
(** ** The login payload                                                 *)
(* ===================================================================== *)

Module RouterPayload.

Import Router.

Lemma check_required (f : option Field) :
  check true [] f = None <-> nonempty_string f.
Proof.
  unfold nonempty_string. destruct f as [[s |] |]; cbn [check].
  - destruct s as [| c s]; cbn [JS.truthy_string]; split.
    + discriminate.
    + intros (s' & E & Hne). injection E as <-. contradiction.
    + intros _. eexists. split; [reflexivity | discriminate].
    + reflexivity.
  - split; [discriminate | intros (s & E & _); discriminate].
  - split; [discriminate | intros (s & E & _); discriminate].
Qed.

Lemma check_optional (f : option Field) :
  check false [] f = None <-> f = None \/ nonempty_string f.
Proof.
  destruct f as [f |].
  - rewrite <- check_required. cbn [check]. split; [now right |].
    intros [H | H]; [discriminate | exact H].
  - split; [now left | reflexivity].
Qed.

Lemma check_mode_iff (m : option Field) :
  check false ["cookie"; "json"] m = None <->
  m = None \/ m = Some (Str "json") \/ m = Some (Str "cookie").
Proof.
  split; [apply RouterFacts.check_mode |].
  intros [-> | [-> | ->]]; reflexivity.
Qed.

Section Handler.

Variable env : Env.
Variable ms : string -> option Z.
Variable joiMessage : string * Issue -> string.
Variable authenticationService_login :
  string -> Body -> option Field -> Promise Tokens.

(** X17. The login schema accepts a body exactly when identifier and password
    are non-empty strings, the mode is absent, json or cookie, and the
    one-time code is absent or a non-empty string; any other body is
    answered with InvalidPayload, whatever the authentication service
    would have said. *)
Theorem login_payload_validated (provider : string) (body : Body) :
  (loginSchema body = None <->
   nonempty_string (identifier body) /\
   nonempty_string (password body) /\
   (mode body = None \/ mode body = Some (Str "json") \/
    mode body = Some (Str "cookie")) /\
   (otp body = None \/ nonempty_string (otp body))) /\
  (loginSchema body <> None ->
   exists msg,
     createLDAPAuthRouter env ms joiMessage authenticationService_login
                          provider body
     = Rejected (InvalidPayloadException msg)).
Proof.
  split.
  - rewrite <- check_required, <- check_required, <- check_mode_iff,
      <- check_optional.
    unfold loginSchema, first_issue.
    destruct (check true [] (identifier body)) as [i1 |];
      [split; [discriminate | intros (H & _); discriminate] |].
    destruct (check true [] (password body)) as [i2 |];
      [split; [discriminate | intros (_ & H & _); discriminate] |].
    destruct (check false ["cookie"; "json"] (mode body)) as [i3 |];
      [split; [discriminate | intros (_ & _ & H & _); discriminate] |].
    destruct (check false [] (otp body)) as [i4 |];
      [split; [discriminate | intros (_ & _ & _ & H); discriminate] |].
    split; auto.
  - intros H. unfold createLDAPAuthRouter.
    destruct (loginSchema body) as [error |]; [eauto | contradiction].
Qed.

End Handler.

End RouterPayload.

(* ===================================================================== *)
(** ** Properties of the date helper                                     *)
(* ===================================================================== *)

Module DateHelperFacts.

Import DateHelperOracle.

(** X19. Every method of the helper binds the table and the column given, in
    this order, to the two identifier placeholders of its statement, and
    no two methods extract with the same statement: two extractions are
    equal only for the same part of the same column of the same table. *)
Theorem date_parts_bound_and_distinct (p q : Part)
    (table column table' column' : string) :
  bindings (extract p table column) = [table; column] /\
  placeholders (sql (extract p table column))
  = length (bindings (extract p table column)) /\
  (extract p table column = extract q table' column' <->
   p = q /\ table = table' /\ column = column').
Proof.
  split; [destruct p; reflexivity | split; [destruct p; reflexivity |]].
  split.
  - destruct p, q; intros H; try discriminate H;
      injection H as -> ->; repeat split.
  - intros (-> & -> & ->). reflexivity.
Qed.

End DateHelperFacts.

(* ===================================================================== *)
(** ** Properties of the map layers                                      *)
(* ===================================================================== *)

Module MapStyleFacts.

Import QArith.
Import MapStyle.

Lemma reached (stop input : Z) :
  Qle_bool (inject_Z stop) (inject_Z input) = (stop <=? input)%Z.
Proof.
  unfold Qle_bool, inject_Z. cbn [Qnum Qden]. now rewrite !Z.mul_1_r.
Qed.

(** X20. A cluster is drawn by the two cluster layers and by no other; any
    other feature is drawn by the layers of its geometry type and by no
    other: outline and fill for a polygon, the line layer for a line,
    shadow and point for a point. No two layers share an id. *)
Theorem every_feature_drawn_by_its_layers (c : Colors) (feature : Feature) :
  drawn_by c feature =
    (if is_cluster feature
     then ["__directus_clusters"; "__directus_cluster_count"]
     else match geometry feature with
          | Polygon => ["__directus_polygons_outline"; "__directus_polygons"]
          | LineString => ["__directus_lines"]
          | Point => ["__directus_points_shadow"; "__directus_points"]
          end) /\
  NoDup (map id (layers c)).
Proof.
  split.
  - unfold drawn_by, is_cluster, layers, plain.
    cbn [List.filter passes filter forallb String.eqb Ascii.eqb Bool.eqb andb].
    destruct (lookup (properties feature) "point_count");
      destruct (geometry feature); reflexivity.
  - unfold layers. cbn [map id].
    repeat (apply NoDup_cons;
            [cbn [In]; intros H;
             repeat (destruct H as [H | H]; [discriminate H |]); exact H |]).
    apply NoDup_nil.
Qed.

(** X21. On a cluster of [n] points the circle radius is 20 below 100 points,
    30 from 100 and 40 from 750, and the size of the count and the colour
    of the circle change at the same two thresholds. *)
Theorem cluster_steps (c : Colors) (feature : Feature) (n : Z)
    (H : lookup (properties feature) "point_count" = Some (numeric n)) :
  styled c "__directus_clusters" "circle-radius" feature
  = Some (if (n <? 100)%Z then number 20
          else if (n <? 750)%Z then number 30 else number 40) /\
  styled c "__directus_cluster_count" "text-size" feature
  = Some (if (n <? 100)%Z then number 15
          else if (n <? 750)%Z then number 17 else number 19) /\
  styled c "__directus_clusters" "circle-color" feature
  = Some (if (n <? 100)%Z then text "#7fe3ca"
          else if (n <? 750)%Z then text "#fde2a7" else text "#f0a7b3").
Proof.
  assert (S : forall base o1 o2,
            step_output (inject_Z n) base [(inject_Z 100, o1); (inject_Z 750, o2)]
            = if (n <? 100)%Z then base else if (n <? 750)%Z then o1 else o2).
  { intros base o1 o2. cbn [step_output]. rewrite !reached.
    destruct (Z.leb_spec 100 n), (Z.ltb_spec n 100), (Z.leb_spec 750 n),
             (Z.ltb_spec n 750); try lia; reflexivity. }
  unfold styled, layers.
  cbn [List.filter id String.eqb Ascii.eqb Bool.eqb andb paint layout app lookup
       evaluate].
  rewrite H. repeat split; f_equal; apply S.
Qed.

(** X22. A polygon outline, a line and a point are orange, and a polygon fill
    is yellow, exactly while the feature is selected or hovered; otherwise
    all four are green, and a feature without such state counts as
    neither. The shadow of a point is always black. *)
Theorem highlight_colours (c : Colors) (feature : Feature) :
  styled c "__directus_polygons_outline" "line-color" feature
  = Some (text (if highlighted feature then orange c else green c)) /\
  styled c "__directus_lines" "line-color" feature
  = Some (text (if highlighted feature then orange c else green c)) /\
  styled c "__directus_points" "circle-color" feature
  = Some (text (if highlighted feature then orange c else green c)) /\
  styled c "__directus_polygons" "fill-color" feature
  = Some (text (if highlighted feature then yellow c else green c)) /\
  styled c "__directus_points_shadow" "circle-color" feature
  = Some (text (black c)) /\
  (lookup (state feature) "selected" = None ->
   lookup (state feature) "hovered" = None ->
   highlighted feature = false).
Proof.
  unfold styled, layers, selected_or_hovered, highlighted.
  cbn [List.filter id String.eqb Ascii.eqb Bool.eqb andb paint layout app lookup
       evaluate first_case].
  cbn [holds].
  destruct (lookup (state feature) "selected") as [[] |];
    destruct (lookup (state feature) "hovered") as [[] |];
    repeat split; intros; try discriminate; reflexivity.
Qed.

End MapStyleFacts.

(* ===================================================================== *)
(** ** Further properties on the sample deployment                       *)
(* ===================================================================== *)

Lemma verify_binds_once_as_user_witness :
  exists options,
    calls (verify Sample.config Sample.jdoe (Some "pw")
                  [clientError Sample.econnrefused; bindCallback None])
    = [createClient options; onError; bind Sample.jdoeDn "pw"; destroy].
Proof.
  exact (verify_binds_once_as_user Sample.config Sample.jdoe Sample.jdoeDn "pw"
           [clientError Sample.econnrefused; bindCallback None]
           eq_refl eq_refl eq_refl).
Defined.

Lemma verify_client_never_reconnects_witness :
  exists options rest,
    calls (verify Fixture.reconnecting Sample.jdoe (Some "pw") [])
    = createClient options :: rest /\
    JS.get options "reconnect" = Some (JS.VBool false) /\
    JS.get options "timeout" = Some (JS.VNumber (JS.int 5000)).
Proof.
  assert (Hkeys : NoDup (JS.keys (clientConfig Fixture.reconnecting))).
  { cbn. repeat constructor; cbn; intuition discriminate. }
  destruct (verify_client_never_reconnects Fixture.reconnecting Sample.jdoe
              Sample.jdoeDn "pw" [] eq_refl eq_refl eq_refl Hkeys)
    as (options & rest & Hc & Hr & _ & Hother).
  exists options, rest. split; [exact Hc | split; [exact Hr |]].
  rewrite Hother by discriminate. reflexivity.
Defined.

Lemma verify_first_event_decides_witness :
  outcome (verify Sample.config Sample.jdoe (Some "pw")
                  [clientError Sample.econnrefused; bindCallback None])
  = Rejected (handleError Sample.econnrefused).
Proof.
  destruct (verify_first_event_decides Sample.config Sample.jdoe Sample.jdoeDn "pw"
              eq_refl eq_refl eq_refl) as (_ & H).
  exact (H (clientError Sample.econnrefused) [bindCallback None]).
Defined.

Lemma refresh_rejections_in_taxonomy_witness :
  (in_taxonomy "ldap" InvalidCredentialsException /\
   forall e, InvalidCredentialsException <> RawError e) \/
  (exists e,
     InvalidCredentialsException = RawError e /\
     (Sample.search (Some (bindDn Sample.config)) noOptions = SearchThrows e \/
      Sample.search (external_identifier Sample.locked) (infoSearch Sample.config)
      = SearchThrows e)).
Proof.
  exact (refresh_rejections_in_taxonomy
           Sample.parseNumber Sample.config Sample.search Sample.rebind
           Sample.locked InvalidCredentialsException eq_refl).
Defined.

Lemma constructor_requires_bind_and_endpoint_witness :
  constructor Fixture.urlOrSocket Fixture.urlAndSocket
  = ClientCreationThrows
      (mkError (OtherError "TypeError")
               "options.url ^ options.socketPath (String) required").
Proof.
  destruct (constructor_requires_bind_and_endpoint
              Fixture.urlOrSocket Fixture.urlAndSocket) as (_ & H & _).
  apply H. split; [| reflexivity].
  intros I. apply guard_incomplete in I. discriminate I.
Defined.

Lemma fetchUserId_first_match_up_to_case_witness :
  exists before row after,
    DB.directus_users Sample.database = before ++ row :: after /\
    DB.id row = "u-2" /\
    caseless_dn (DB.external_identifier row) Sample.jdoeDn /\
    forall r, In r before -> ~ caseless_dn (DB.external_identifier r) Sample.jdoeDn.
Proof.
  assert (Hdn : ASCII.only Sample.jdoeDn).
  { unfold Sample.jdoeDn. ascii_only. }
  assert (Hrows : Forall (fun row => forall s, DB.external_identifier row = Some s ->
                                               ASCII.only s)
                         (DB.directus_users Sample.database)).
  { apply Forall_cons; [intros s E; discriminate E |].
    apply Forall_cons; [intros s E; injection E as <-; ascii_only |].
    apply Forall_nil. }
  destruct (fetchUserId_first_match_up_to_case
              ASCII.lower ASCII.lower Sample.jdoeDn Sample.database)
    as (_ & _ & H).
  destruct (H (fun s _ => eq_refl) (fun s _ => eq_refl) Hdn Hrows) as (H' & _).
  apply H'. reflexivity.
Defined.

Lemma validateBindClient_rebinds_on_operations_error_witness :
  validateBindClient Sample.config Fixture.unbound Fixture.rejectingBind
  = Rejected (InvalidConfigException "Invalid bind user" "ldap") /\
  validateBindClient Sample.config Fixture.unbound Sample.rebind = Resolved tt.
Proof.
  split.
  - destruct (validateBindClient_rebinds_on_operations_error
                Sample.config Fixture.unbound Fixture.rejectingBind
                Fixture.operationsError [] eq_refl eq_refl) as (_ & H & _).
    apply (H Sample.badPassword eq_refl). left. reflexivity.
  - destruct (validateBindClient_rebinds_on_operations_error
                Sample.config Fixture.unbound Sample.rebind
                Fixture.operationsError [] eq_refl eq_refl) as (H & _).
    apply H. reflexivity.
Defined.

Lemma validateBindClient_entry_or_end_witness :
  validateBindClient Sample.config Sample.search Sample.rebind = Resolved tt.
Proof.
  destruct (validateBindClient_entry_or_end
              Sample.config Sample.search Sample.rebind
              [searchEntry Sample.adminEntry; Sample.done] eq_refl) as (H & _).
  exact (H Sample.adminEntry [Sample.done] eq_refl).
Defined.

Lemma fetchUserDn_first_entry_lowercased_witness :
  exists object rest,
    Sample.search (Some (userDn Sample.config)) (userSearch Sample.config "jdoe")
    = SearchStarted (searchEntry object :: rest) /\
    Sample.jdoeDn = ASCII.lower (dn object).
Proof.
  destruct (fetchUserDn_first_entry_lowercased
              ASCII.lower Sample.config Sample.search "jdoe") as (H & _).
  apply H. reflexivity.
Defined.

Lemma fetchUserGroups_error_or_silence_witness :
  fetchUserGroups Sample.config Scenario.brokenGroups Sample.jdoeDn
  = Rejected (handleError Sample.econnrefused).
Proof.
  destruct (fetchUserGroups_error_or_silence
              Sample.config Scenario.brokenGroups Sample.jdoeDn
              "ou=groups,dc=example,dc=org" [Sample.staffGroup]
              eq_refl eq_refl) as (H & _).
  exact (H Sample.econnrefused [] eq_refl).
Defined.

Lemma getUserID_returns_linked_user_witness :
  exists userDn,
    fetchUserDn ASCII.lower Sample.config Sample.search "jdoe"
    = Resolved (Some userDn) /\
    ((first_linked ASCII.lower ASCII.lower Sample.database userDn "u-2" /\
      exists role,
        service_calls
          (snd (getUserID Sample.parseNumber ASCII.lower ASCII.lower Sample.config
                          Sample.search Sample.rebind Sample.usersService
                          (Some "jdoe") Sample.world))
        = [] ++ [updateOne "u-2" [("role", role)]])
     \/
     (JS.truthy_opt (fetchUserId ASCII.lower ASCII.lower userDn Sample.database)
      = false /\
      first_linked ASCII.lower ASCII.lower
        (db (snd (getUserID Sample.parseNumber ASCII.lower ASCII.lower Sample.config
                            Sample.search Sample.rebind Sample.usersService
                            (Some "jdoe") Sample.world)))
        userDn "u-2" /\
      exists data,
        JS.get data "external_identifier" = Some (JS.VString userDn) /\
        service_calls
          (snd (getUserID Sample.parseNumber ASCII.lower ASCII.lower Sample.config
                          Sample.search Sample.rebind Sample.usersService
                          (Some "jdoe") Sample.world))
        = [] ++ [createOne data])).
Proof.
  exact (getUserID_returns_linked_user
           Sample.parseNumber ASCII.lower ASCII.lower
           Sample.config Sample.search Sample.rebind
           Sample.usersService (Some "jdoe") Sample.world "u-2" eq_refl).
Defined.

Lemma getUserID_second_login_updates_witness :
  exists role,
    service_calls
      (snd (getUserID Sample.parseNumber ASCII.lower ASCII.lower
            Sample.config Sample.search Sample.rebind
                      Sample.usersService (Some "jdoe") Scenario.afterFirstLogin))
    = [] ++ [createOne (newUser Sample.config "cn=jdoe,ou=users,dc=example,dc=org"
                          (userInfoOf Sample.parseNumber Sample.config
                                      Sample.jdoeEntry)
                          (Some (DB.mkRoleRow "r-admin" "Admins")));
             updateOne "u-new" [("role", role)]].
Proof.
  exact (getUserID_second_login_updates
           Sample.parseNumber ASCII.lower ASCII.lower Sample.config Sample.search Sample.rebind
           Sample.usersService (Some "jdoe")
           (mkWorld Sample.emptyDatabase []) Scenario.afterFirstLogin "u-new" _
           eq_refl eq_refl eq_refl).
Defined.

Lemma getUserID_without_group_root_clears_role_witness :
  service_calls
    (snd (getUserID Sample.parseNumber ASCII.lower ASCII.lower
          Fixture.withoutGroups Sample.search
                    Sample.rebind Sample.usersService (Some "jdoe") Sample.world))
  = [updateOne "u-2" [("role", JS.VNull)]].
Proof.
  destruct (getUserID_without_group_root_clears_role
              Sample.parseNumber ASCII.lower ASCII.lower
                    Fixture.withoutGroups Sample.search Sample.rebind
              Sample.usersService (Some "jdoe") Sample.world
              "cn=jdoe,ou=users,dc=example,dc=org" "u-2"
              eq_refl eq_refl eq_refl eq_refl eq_refl eq_refl eq_refl) as (_ & H).
  exact H.
Defined.

Lemma getUserID_unknown_identifier_rejected_witness :
  getUserID Sample.parseNumber ASCII.lower ASCII.lower Sample.config Sample.search Sample.rebind
            Sample.usersService (Some "nobody") Sample.world
  = (Rejected InvalidCredentialsException, Sample.world).
Proof.
  destruct (getUserID_unknown_identifier_rejected
              Sample.parseNumber ASCII.lower ASCII.lower
                    Sample.config Sample.search Sample.rebind
              Sample.usersService "nobody" Sample.world (Some (mkResult 0)) []
              eq_refl eq_refl eq_refl) as (H & _).
  exact H.
Defined.

Lemma cluster_steps_witness :
  MapStyle.styled Scenario.colors "__directus_clusters" "circle-radius"
                  Scenario.cluster
  = Some (MapStyle.number (QArith_base.inject_Z 30)).
Proof.
  destruct (MapStyleFacts.cluster_steps Scenario.colors Scenario.cluster 120 eq_refl)
    as (H & _).
  exact H.
Defined.

(* ===================================================================== *)
(** ** Account-control values that are not plain integers                *)
(* ===================================================================== *)

Lemma bitand_flags_finite (m e : Z) :
  JS.bitand (JS.Finite m e) (JS.int INVALID_ACCOUNT_FLAGS)
  = JS.int (Z.land (JS.truncate m e) INVALID_ACCOUNT_FLAGS).
Proof.
  unfold JS.bitand, JS.int. f_equal.
  change (JS.ToInt32 (JS.Finite INVALID_ACCOUNT_FLAGS 0)) with INVALID_ACCOUNT_FLAGS.
  cbn [JS.ToInt32].
  rewrite (land_low32 (JS.wrap32 (JS.truncate m e)) (JS.truncate m e)
             (wrap32_mod (JS.truncate m e))), land_flags.
  destruct (Z.testbit (JS.truncate m e) 1), (Z.testbit (JS.truncate m e) 4),
           (Z.testbit (JS.truncate m e) 23); reflexivity.
Qed.

(** X18. An account-control value that is not a number, or is infinite, never
    blocks a refresh; a finite one blocks exactly when it is not zero and
    its integer part, fractional digits dropped, has one of the three
    flags set, however large it is. *)
Theorem accountInvalid_by_integer_part (info : UserInfo) :
  (userAccountControl info = JS.NaN -> accountInvalid (Some info) = false) /\
  (forall negative, userAccountControl info = JS.Infinity negative ->
                    accountInvalid (Some info) = false) /\
  (forall m e, userAccountControl info = JS.Finite m e ->
     accountInvalid (Some info)
     = negb (m =? 0)%Z
       && negb (Z.land (JS.truncate m e) INVALID_ACCOUNT_FLAGS =? 0)%Z).
Proof.
  unfold accountInvalid. repeat split.
  - intros ->. reflexivity.
  - intros negative ->. reflexivity.
  - intros m e ->. rewrite bitand_flags_finite. cbn [JS.truthy JS.int].
    destruct (m =? 0)%Z; reflexivity.
Qed.
